(** * gpioman: the per-line pulse state machine and its sysfs interface

    A shallow embedding of [gpio-manager/gpioman.c].  The C functions are
    written as computations in a small state, trace and fault monad over
    [gpio_line_state]; the driver-wide part (the list of live lines, the
    kobject reference counts) is a heap of line states keyed by address.

    Conventions.
    - A C [int] is a [Z] in [[INT_MIN, INT_MAX]]; [counter++] and
      [on_cycles + off_cycles] wrap around ([int_wrap]), as the kernel is
      built with wrapping signed arithmetic.
    - The two build configurations ([#ifdef USE_HR_TIMERS]) are selected by
      the boolean [USE_HR_TIMERS]; [HZ] is the kernel's tick rate, a
      configuration constant that the file only names.
    - Kernel services ([gpiod_set_value], [mod_timer], [hrtimer_start],
      [kstrtoint], [kobject_put], ...) are modelled by what they do to the
      line's timer, its gpio descriptor and the reference count, and every
      call is recorded, in order, as an [event]. *)

From stdpp Require Import gmap strings list.
From Stdlib Require Import ZArith Lia Ascii DecimalString.

Open Scope Z_scope.

(** ** Constants of the source *)

Definition LOGIC_HIGH : Z := 1.
Definition LOGIC_LOW : Z := 0.

Definition MS_PER_SEC : Z := 1000.
Definition US_PER_SEC : Z := 1000000.

(** errno values (include/uapi/asm-generic/errno-base.h) *)
Definition ENOMEM : Z := 12.
Definition EINVAL : Z := 22.
Definition ERANGE : Z := 34.

(** ** C integers *)

Definition INT_MIN : Z := - 2 ^ 31.
Definition INT_MAX : Z := 2 ^ 31 - 1.

(** The value of an [int] expression whose mathematical result is [z]. *)
Definition int_wrap (z : Z) : Z := (z + 2 ^ 31) mod 2 ^ 32 - 2 ^ 31.

(** The cast [(u64)x]. *)
Definition u64_of (z : Z) : Z := z mod 2 ^ 64.

Definition is_int (z : Z) : Prop := INT_MIN <= z <= INT_MAX.

(** ** Calls into the kernel, as they appear in a trace *)

Inductive event : Type :=
| EvGpiodSetValue (v : Z)          (* gpiod_set_value(desc, v) *)
| EvGpiodPut                       (* gpiod_put(desc) *)
| EvHrtimerStart (delay_ms : Z)    (* hrtimer_start(&timer, ms_to_ktime(d), REL) *)
| EvHrtimerForwardNow (ns : Z)     (* hrtimer_forward_now(timer, ns_to_ktime(ns)) *)
| EvHrtimerCancel                  (* hrtimer_cancel(&timer) *)
| EvModTimer (delay_ms : Z)        (* mod_timer(timer, jiffies + msecs_to_jiffies(d)) *)
| EvDelTimer                       (* del_timer(&timer) *)
| EvDelTimerSync                   (* del_timer_sync(&timer) *)
| EvListDel                        (* list_del(&gls->list) *)
| EvKfree                          (* kfree(gls) *)
| EvMessage (text : string).       (* message(...), i.e. pr_info *)

(** ** Per gpio-pin state: [struct gpio_line_state] *)

(** [struct kobject], reduced to its reference count. *)
Record kobject : Type := { kref : Z }.

(** The line's timer ([struct hrtimer] or [struct timer_list]): whether it
    is queued, and the relative expiry it was last given. *)
Record timer_model : Type := { pending : bool; expires : Z }.

(** What [struct gpio_desc *] points to: whether the descriptor is still
    held by this consumer, and the logic value last asserted on the line. *)
Record gpio_desc : Type := { held : bool; value : Z }.

Record gpio_line_state : Type := {
  kobj : kobject;
  devname : string;
  timer : timer_model;
  gpio_descriptor : gpio_desc;
  (* sysfs-controlled *)
  pulse_period : Z;
  on_cycles : Z;
  off_cycles : Z;
  counter : Z;
  pin_ctl_enabled : Z;
  pin_logic_level : Z
}.

Definition set_kobj (k : kobject) (g : gpio_line_state) : gpio_line_state :=
  {| kobj := k; devname := devname g; timer := timer g;
     gpio_descriptor := gpio_descriptor g; pulse_period := pulse_period g;
     on_cycles := on_cycles g; off_cycles := off_cycles g;
     counter := counter g; pin_ctl_enabled := pin_ctl_enabled g;
     pin_logic_level := pin_logic_level g |}.

Definition set_timer (t : timer_model) (g : gpio_line_state) : gpio_line_state :=
  {| kobj := kobj g; devname := devname g; timer := t;
     gpio_descriptor := gpio_descriptor g; pulse_period := pulse_period g;
     on_cycles := on_cycles g; off_cycles := off_cycles g;
     counter := counter g; pin_ctl_enabled := pin_ctl_enabled g;
     pin_logic_level := pin_logic_level g |}.

Definition set_gpio_descriptor (d : gpio_desc) (g : gpio_line_state)
  : gpio_line_state :=
  {| kobj := kobj g; devname := devname g; timer := timer g;
     gpio_descriptor := d; pulse_period := pulse_period g;
     on_cycles := on_cycles g; off_cycles := off_cycles g;
     counter := counter g; pin_ctl_enabled := pin_ctl_enabled g;
     pin_logic_level := pin_logic_level g |}.

Definition set_pulse_period (p : Z) (g : gpio_line_state) : gpio_line_state :=
  {| kobj := kobj g; devname := devname g; timer := timer g;
     gpio_descriptor := gpio_descriptor g; pulse_period := p;
     on_cycles := on_cycles g; off_cycles := off_cycles g;
     counter := counter g; pin_ctl_enabled := pin_ctl_enabled g;
     pin_logic_level := pin_logic_level g |}.

Definition set_on_cycles (n : Z) (g : gpio_line_state) : gpio_line_state :=
  {| kobj := kobj g; devname := devname g; timer := timer g;
     gpio_descriptor := gpio_descriptor g; pulse_period := pulse_period g;
     on_cycles := n; off_cycles := off_cycles g;
     counter := counter g; pin_ctl_enabled := pin_ctl_enabled g;
     pin_logic_level := pin_logic_level g |}.

Definition set_off_cycles (n : Z) (g : gpio_line_state) : gpio_line_state :=
  {| kobj := kobj g; devname := devname g; timer := timer g;
     gpio_descriptor := gpio_descriptor g; pulse_period := pulse_period g;
     on_cycles := on_cycles g; off_cycles := n;
     counter := counter g; pin_ctl_enabled := pin_ctl_enabled g;
     pin_logic_level := pin_logic_level g |}.

Definition set_counter (c : Z) (g : gpio_line_state) : gpio_line_state :=
  {| kobj := kobj g; devname := devname g; timer := timer g;
     gpio_descriptor := gpio_descriptor g; pulse_period := pulse_period g;
     on_cycles := on_cycles g; off_cycles := off_cycles g;
     counter := c; pin_ctl_enabled := pin_ctl_enabled g;
     pin_logic_level := pin_logic_level g |}.

Definition set_pin_ctl_enabled (e : Z) (g : gpio_line_state) : gpio_line_state :=
  {| kobj := kobj g; devname := devname g; timer := timer g;
     gpio_descriptor := gpio_descriptor g; pulse_period := pulse_period g;
     on_cycles := on_cycles g; off_cycles := off_cycles g;
     counter := counter g; pin_ctl_enabled := e;
     pin_logic_level := pin_logic_level g |}.

Definition set_pin_logic_level (l : Z) (g : gpio_line_state) : gpio_line_state :=
  {| kobj := kobj g; devname := devname g; timer := timer g;
     gpio_descriptor := gpio_descriptor g; pulse_period := pulse_period g;
     on_cycles := on_cycles g; off_cycles := off_cycles g;
     counter := counter g; pin_ctl_enabled := pin_ctl_enabled g;
     pin_logic_level := l |}.

(** ** The monad: state of one line, trace of kernel calls, faults *)

(** The two ways a call into this file can bring the kernel down. *)
Inductive fault : Type :=
| BUG              (* BUG_ON(cond) with cond true *)
| DivideError.     (* integer division by zero *)

Inductive outcome (A : Type) : Type :=
| Ret (a : A) (g : gpio_line_state) (tr : list event)
| Fault (f : fault) (g : gpio_line_state) (tr : list event).
Arguments Ret {A} a g tr.
Arguments Fault {A} f g tr.

Definition M (A : Type) : Type := gpio_line_state -> outcome A.

Definition ret {A : Type} (a : A) : M A := fun g => Ret a g [].

Definition bind {A B : Type} (m : M A) (k : A -> M B) : M B :=
  fun g =>
    match m g with
    | Ret a g1 t1 =>
        match k a g1 with
        | Ret b g2 t2 => Ret b g2 (t1 ++ t2)
        | Fault f g2 t2 => Fault f g2 (t1 ++ t2)
        end
    | Fault f g1 t1 => Fault f g1 t1
    end.

Declare Scope gls_scope.
Delimit Scope gls_scope with gls.
Notation "x <- m ;; k" := (bind m (fun x => k))
  (at level 100, m at next level, right associativity) : gls_scope.
Notation "m ;; k" := (bind m (fun _ => k))
  (at level 100, right associativity) : gls_scope.
Open Scope gls_scope.

Definition get : M gpio_line_state := fun g => Ret g g [].
Definition modify (f : gpio_line_state -> gpio_line_state) : M unit :=
  fun g => Ret tt (f g) [].
Definition emit (e : event) : M unit := fun g => Ret tt g [e].
Definition raise {A : Type} (f : fault) : M A := fun g => Fault f g [].

Definition state_of {A : Type} (o : outcome A) : gpio_line_state :=
  match o with Ret _ g _ => g | Fault _ g _ => g end.
Definition trace_of {A : Type} (o : outcome A) : list event :=
  match o with Ret _ _ t => t | Fault _ _ t => t end.
Definition faulted {A : Type} (o : outcome A) : option fault :=
  match o with Ret _ _ _ => None | Fault f _ _ => Some f end.

(** ** Kernel services used by the file *)

Definition BUG_ON (cond : bool) : M unit :=
  if cond then raise BUG else ret tt.

Definition message (text : string) : M unit := emit (EvMessage text).

(** [gpiod_set_value(gls->gpio_descriptor, v)] *)
Definition gpiod_set_value (v : Z) : M unit :=
  modify (fun g =>
    set_gpio_descriptor {| held := held (gpio_descriptor g); value := v |} g) ;;
  emit (EvGpiodSetValue v).

(** [gpiod_put(gls->gpio_descriptor)] *)
Definition gpiod_put : M unit :=
  modify (fun g =>
    set_gpio_descriptor {| held := false; value := value (gpio_descriptor g) |} g) ;;
  emit EvGpiodPut.

(** [hrtimer_start(&gls->timer, ms_to_ktime(d), HRTIMER_MODE_REL)] *)
Definition hrtimer_start (delay_ms : Z) : M unit :=
  modify (set_timer {| pending := true; expires := delay_ms |}) ;;
  emit (EvHrtimerStart delay_ms).

(** [hrtimer_forward_now(timer, ns_to_ktime(ns))]: moves the expiry; the
    timer is queued again only if the callback returns [HRTIMER_RESTART]. *)
Definition hrtimer_forward_now (ns : Z) : M unit :=
  modify (fun g => set_timer {| pending := pending (timer g); expires := ns |} g) ;;
  emit (EvHrtimerForwardNow ns).

Definition hrtimer_cancel : M unit :=
  modify (fun g => set_timer {| pending := false; expires := expires (timer g) |} g) ;;
  emit EvHrtimerCancel.

(** [mod_timer(timer, jiffies + msecs_to_jiffies(d))]: returns 1 when the
    timer was already queued, 0 when it was not. *)
Definition mod_timer (delay_ms : Z) : M Z :=
  g <- get ;;
  modify (set_timer {| pending := true; expires := delay_ms |}) ;;
  emit (EvModTimer delay_ms) ;;
  ret (if pending (timer g) then 1 else 0).

Definition del_timer : M unit :=
  modify (fun g => set_timer {| pending := false; expires := expires (timer g) |} g) ;;
  emit EvDelTimer.

Definition del_timer_sync : M unit :=
  modify (fun g => set_timer {| pending := false; expires := expires (timer g) |} g) ;;
  emit EvDelTimerSync.

(** [gls->counter++]: the value before the increment. *)
Definition counter_post_incr : M Z :=
  g <- get ;;
  modify (set_counter (int_wrap (counter g + 1))) ;;
  ret (counter g).

(** ** The timer callbacks *)

Inductive hrtimer_restart : Type := HRTIMER_NORESTART | HRTIMER_RESTART.

(** [hr_interval_cb] (built when USE_HR_TIMERS is defined) *)
Definition hr_interval_cb : M hrtimer_restart :=
  gls <- get ;;
  if pin_ctl_enabled gls =? 0 then ret HRTIMER_NORESTART
  else
    (if pin_logic_level gls =? LOGIC_HIGH then
       c <- counter_post_incr ;;
       if c =? on_cycles gls then
         if 0 <? off_cycles gls then modify (set_pin_logic_level LOGIC_LOW)
         else modify (set_counter 0)
       else ret tt
     else if pin_logic_level gls =? LOGIC_LOW then
       BUG_ON (off_cycles gls =? 0) ;;
       c <- counter_post_incr ;;
       if c =? int_wrap (on_cycles gls + off_cycles gls) then
         modify (set_pin_logic_level LOGIC_HIGH) ;;
         modify (set_counter 1)
       else ret tt
     else ret tt) ;;
    gls <- get ;;
    gpiod_set_value (pin_logic_level gls) ;;
    hrtimer_forward_now (u64_of (u64_of (pulse_period gls) * 1000)) ;;
    ret HRTIMER_RESTART.

(** [lr_interval_cb] (built otherwise) *)
Definition lr_interval_cb : M unit :=
  gls <- get ;;
  if pin_ctl_enabled gls =? 0 then ret tt
  else
    rc <- mod_timer (pulse_period gls) ;;
    (if rc =? 0 then ret tt else message "failed to rearm timer") ;;
    (if pin_logic_level gls =? LOGIC_HIGH then
       c <- counter_post_incr ;;
       if c =? on_cycles gls then
         if 0 <? off_cycles gls then modify (set_pin_logic_level LOGIC_LOW)
         else modify (set_counter 0)
       else ret tt
     else if pin_logic_level gls =? LOGIC_LOW then
       BUG_ON (off_cycles gls =? 0) ;;
       c <- counter_post_incr ;;
       if c =? int_wrap (on_cycles gls + off_cycles gls) then
         modify (set_pin_logic_level LOGIC_HIGH) ;;
         modify (set_counter 1)
       else ret tt
     else ret tt) ;;
    gls <- get ;;
    gpiod_set_value (pin_logic_level gls).

(** ** String to integer, integer to string *)

Definition newline : string := String (ascii_of_nat 10) EmptyString.

Definition digit_of (c : ascii) : option Z :=
  let n := Z.of_nat (nat_of_ascii c) in
  if (48 <=? n) && (n <=? 57) then Some (n - 48) else None.

(** The leading decimal digits of [s]: their value (continuing from [acc]),
    how many there are, and the rest of the string. *)
Fixpoint parse_integer (s : string) (acc : Z) (n : nat) : Z * nat * string :=
  match s with
  | EmptyString => (acc, n, s)
  | String c r =>
      match digit_of c with
      | Some d => parse_integer r (10 * acc + d) (S n)
      | None => (acc, n, s)
      end
  end.

(** [kstrtoint(buf, 10, &var)] of the kernel library: an optional sign, at
    least one decimal digit, an optional single newline, nothing else, and
    the value must fit an [int].  The result is the return code (0,
    [-EINVAL] or [-ERANGE]) and the value stored in [var]; on failure
    nothing is stored and the second component is 0. *)
Definition kstrtoint (buf : string) : Z * Z :=
  let '(neg, body) :=
    match buf with
    | String "-"%char r => (true, r)
    | String "+"%char r => (false, r)
    | _ => (false, buf)
    end in
  let '(v, n, rest) := parse_integer body 0 0%nat in
  if 2 ^ 64 <=? v then (- ERANGE, 0)
  else if (n =? 0)%nat then (- EINVAL, 0)
  else if negb (String.eqb rest EmptyString || String.eqb rest newline)
  then (- EINVAL, 0)
  else
    let x := if neg then - v else v in
    if (INT_MIN <=? x) && (x <=? INT_MAX) then (0, x) else (- ERANGE, 0).

(** [sprintf(buf, "%u\n", var)]: the text written and the number of
    characters, which is the return value. *)
Definition sprintf_u (var : Z) : string * Z :=
  let text :=
    (NilZero.string_of_uint (N.to_uint (Z.to_N (var mod 2 ^ 32))) ++ newline)%string in
  (text, Z.of_nat (String.length text)).

(** ** Generic sysfs operation callbacks *)

Section Build.

(** [#ifdef USE_HR_TIMERS] *)
Variable USE_HR_TIMERS : bool.
(** [KERNEL_HERTZ], i.e. the kernel's [HZ] *)
Variable HZ : Z.

Definition KERNEL_HERTZ : Z := HZ.

(** [read_sysfs_attribute].  [var0] is what the uninitialised local [var]
    holds when the attribute name is none of the four the ktype
    registers. *)
Definition read_sysfs_attribute (var0 : Z) (attribute : string)
  : M (string * Z) :=
  gls <- get ;;
  var <-
    (if String.eqb attribute "status" then ret (pin_ctl_enabled gls)
     else if String.eqb attribute "on_cycles" then ret (on_cycles gls)
     else if String.eqb attribute "off_cycles" then ret (off_cycles gls)
     else if String.eqb attribute "freq" then
       if USE_HR_TIMERS then
         if pulse_period gls =? 0 then raise DivideError
         else ret (Z.quot US_PER_SEC (pulse_period gls))
       else
         if pulse_period gls =? 0 then raise DivideError
         else ret (Z.quot MS_PER_SEC (pulse_period gls))
     else ret var0) ;;
  ret (sprintf_u var).

(** [set_gls_frequency] *)
Definition set_gls_frequency (freq : Z) : M unit :=
  freq <-
    (if USE_HR_TIMERS then
       modify (set_pulse_period
                 (if 0 <? freq then Z.quot US_PER_SEC freq else 0)) ;;
       ret freq
     else
       freq <-
         (if KERNEL_HERTZ <? freq then
            message "Frequency setting cannot be met; defaulting to HZ" ;;
            ret KERNEL_HERTZ
          else ret freq) ;;
       modify (set_pulse_period
                 (if 0 <? freq then Z.quot MS_PER_SEC freq else 0)) ;;
       ret freq) ;;
  gls <- get ;;
  if pin_ctl_enabled gls =? 0 then ret tt
  else
    gpiod_set_value LOGIC_HIGH ;;
    if USE_HR_TIMERS then
      if 0 <? freq then hrtimer_start 0 else hrtimer_cancel
    else
      if 0 <? freq then (mod_timer (pulse_period gls) ;; ret tt)
      else del_timer.

(** [write_sysfs_attribute]; the result is the [ssize_t] it returns. *)
Definition write_sysfs_attribute (attribute buf : string) (count : Z) : M Z :=
  let '(rc, var) := kstrtoint buf in
  if (rc <? 0) || (var <? 0) then
    message "Invalid sysfs write: value must be positive integer" ;;
    ret EINVAL
  else
    (* restart state machine *)
    modify (set_counter 0) ;;
    (if String.eqb attribute "status" then
       if var =? LOGIC_LOW then
         (if USE_HR_TIMERS then hrtimer_cancel else del_timer) ;;
         modify (set_pin_ctl_enabled 0) ;;
         modify (set_pin_logic_level LOGIC_LOW) ;;
         gpiod_set_value LOGIC_LOW
       else if var =? LOGIC_HIGH then
         modify (set_pin_logic_level LOGIC_HIGH) ;;
         gpiod_set_value LOGIC_HIGH ;;
         gls <- get ;;
         (if 0 <? pulse_period gls then
            if USE_HR_TIMERS then hrtimer_start 0
            else (mod_timer (pulse_period gls) ;; ret tt)
          else ret tt) ;;
         modify (set_pin_ctl_enabled 1)
       else ret tt
     else if String.eqb attribute "freq" then set_gls_frequency var
     else if String.eqb attribute "on_cycles" then modify (set_on_cycles var)
     else if String.eqb attribute "off_cycles" then modify (set_off_cycles var)
     else ret tt) ;;
    ret count.

(** One expiry of the line's timer, as the kernel's timer core runs it: a
    timer that is not queued does not fire; a queued one is taken off the
    queue and its callback is called; a high-resolution timer is queued
    again when the callback returns [HRTIMER_RESTART]. *)
Definition expire_timer : M unit :=
  gls <- get ;;
  if negb (pending (timer gls)) then ret tt
  else
    modify (fun g =>
      set_timer {| pending := false; expires := expires (timer g) |} g) ;;
    if USE_HR_TIMERS then
      r <- hr_interval_cb ;;
      match r with
      | HRTIMER_RESTART =>
          modify (fun g =>
            set_timer {| pending := true; expires := expires (timer g) |} g)
      | HRTIMER_NORESTART => ret tt
      end
    else lr_interval_cb.

(** [n] consecutive expiries. *)
Fixpoint ticks (n : nat) : M unit :=
  match n with
  | O => ret tt
  | S k => expire_timer ;; ticks k
  end.

End Build.

(** ** Initial state *)

(** [kzalloc(sizeof(struct gpio_line_state), GFP_KERNEL)]: all zero. *)
Definition kzalloc_gls : gpio_line_state :=
  {| kobj := {| kref := 0 |}; devname := EmptyString;
     timer := {| pending := false; expires := 0 |};
     gpio_descriptor := {| held := false; value := 0 |};
     pulse_period := 0; on_cycles := 0; off_cycles := 0; counter := 0;
     pin_ctl_enabled := 0; pin_logic_level := 0 |}.

(** The field assignments of [initialize_gls]; [gpiod_get(.., GPIOD_OUT_LOW)]
    in the probe function has handed over a descriptor driven low, and
    [kobject_init_and_add] leaves the reference count at 1. *)
Definition initialize_fields (device_name : string) (g : gpio_line_state)
  : gpio_line_state :=
  let g := {| kobj := kobj g; devname := device_name; timer := timer g;
              gpio_descriptor := {| held := true; value := LOGIC_LOW |};
              pulse_period := pulse_period g; on_cycles := on_cycles g;
              off_cycles := off_cycles g; counter := counter g;
              pin_ctl_enabled := pin_ctl_enabled g;
              pin_logic_level := pin_logic_level g |} in
  let g := set_pulse_period 0 g in
  let g := set_pin_logic_level LOGIC_LOW g in
  let g := set_on_cycles 1 g in
  let g := set_off_cycles 1 g in
  let g := set_timer {| pending := false; expires := 0 |} g in
  set_kobj {| kref := 1 |} g.

Definition fresh_line (device_name : string) : gpio_line_state :=
  initialize_fields device_name kzalloc_gls.

(** The logic values asserted on the line by a run, in order. *)
Fixpoint output_levels (tr : list event) : list Z :=
  match tr with
  | [] => []
  | EvGpiodSetValue v :: r => v :: output_levels r
  | _ :: r => output_levels r
  end.

(** A line bound as "led0" on which [freq] and then [status] were written. *)
Definition started (USE_HR_TIMERS : bool) (HZ : Z) (freq : string) : M unit :=
  write_sysfs_attribute USE_HR_TIMERS HZ "freq" freq 2 ;;
  write_sysfs_attribute USE_HR_TIMERS HZ "status" "1" 2 ;;
  ret tt.

(** ** The driver: live lines and their reference counts *)

(** Line states live in kernel memory, by address; [gls_list] is the
    file's [static LIST_HEAD(list)]; [klog] records the kernel calls made
    on behalf of each line. *)
Record driver : Type := {
  heap : gmap N gpio_line_state;
  gls_list : list N;
  klog : list (N * event)
}.

Definition empty_driver : driver :=
  {| heap := ∅; gls_list := []; klog := [] |}.

(** [list_del(&gls->list)] *)
Definition list_del (p : N) (l : list N) : list N :=
  List.filter (fun q => negb (q =? p)%N) l.

Section Lifecycle.

Variable USE_HR_TIMERS : bool.

(** [gpio_line_state_release_func]: the ktype's release callback.  A
    pointer to freed memory is outside the model: nothing happens. *)
Definition gpio_line_state_release_func (p : N) (d : driver) : driver :=
  match heap d !! p with
  | None => d
  | Some gls =>
      let o :=
        ((if USE_HR_TIMERS then hrtimer_cancel else del_timer_sync) ;;
         gpiod_set_value LOGIC_LOW ;;
         gpiod_put) gls in
      {| heap := delete p (heap d);
         gls_list := list_del p (gls_list d);
         klog := klog d ++ List.map (pair p) (trace_of o)
                        ++ [(p, EvListDel); (p, EvKfree)] |}
  end.

(** [kobject_get(&gls->kobj)] of the kobject subsystem. *)
Definition kobject_get (p : N) (d : driver) : driver :=
  match heap d !! p with
  | None => d
  | Some gls =>
      {| heap := <[p := set_kobj {| kref := kref (kobj gls) + 1 |} gls]> (heap d);
         gls_list := gls_list d; klog := klog d |}
  end.

(** [kobject_put(&gls->kobj)] of the kobject subsystem: it decrements the
    reference count and calls the ktype's release callback when the count
    gets to 0. *)
Definition kobject_put (p : N) (d : driver) : driver :=
  match heap d !! p with
  | None => d
  | Some gls =>
      let n := kref (kobj gls) - 1 in
      let d1 := {| heap := <[p := set_kobj {| kref := n |} gls]> (heap d);
                   gls_list := gls_list d; klog := klog d |} in
      if n =? 0 then gpio_line_state_release_func p d1 else d1
  end.

(** [rm_func]; [p] is [dev_get_drvdata(&pdev->dev)]. *)
Definition rm_func (p : N) (d : driver) : Z * driver :=
  (0, kobject_put p d).

(** [initialize_gls] on the zeroed block at [p]; [rc] is what
    [kobject_init_and_add] returns. *)
Definition initialize_gls (p : N) (device_name : string) (rc : Z) (d : driver)
  : Z * driver :=
  let d1 := {| heap := <[p := fresh_line device_name]> (heap d);
               gls_list := p :: gls_list d; klog := klog d |} in
  if rc =? 0 then (rc, d1) else (rc, kobject_put p d1).

(** [k] calls of [kobject_put] on the same line. *)
Fixpoint kobject_puts (k : nat) (p : N) (d : driver) : driver :=
  match k with
  | O => d
  | S j => kobject_puts j p (kobject_put p d)
  end.

Fixpoint kobject_gets (k : nat) (p : N) (d : driver) : driver :=
  match k with
  | O => d
  | S j => kobject_gets j p (kobject_get p d)
  end.

End Lifecycle.

(** The kernel calls recorded for line [p]. *)
Definition events_of (p : N) (l : list (N * event)) : list event :=
  List.map snd (List.filter (fun e => (fst e =? p)%N) l).

(** The message logged by the error exit of [write_sysfs_attribute]. *)
Definition invalid_write_message : event :=
  EvMessage "Invalid sysfs write: value must be positive integer".


(** ** Lines used in the examples *)

Definition led0 : gpio_line_state := fresh_line "led0".

(** [led0] after [freq = 2] and [status = 1] were written and the timer
    expired [n] times. *)
Definition running (USE_HR_TIMERS : bool) (n : nat) : gpio_line_state :=
  state_of ((started USE_HR_TIMERS 250 "2" ;; ticks USE_HR_TIMERS n) led0).

(** ** Order of the kernel calls in a trace *)

Definition is_rearm (e : event) : bool :=
  match e with
  | EvModTimer _ | EvHrtimerForwardNow _ | EvHrtimerStart _ => true
  | _ => false
  end.

(** The trace asserts a level and arms the timer only afterwards. *)
Fixpoint applies_before_rearm (tr : list event) : bool :=
  match tr with
  | [] => false
  | EvGpiodSetValue _ :: r => existsb is_rearm r
  | e :: r => if is_rearm e then false else applies_before_rearm r
  end.

(** The synchronous timer cancellation of the build's release callback. *)
Definition cancel_event (USE_HR_TIMERS : bool) : event :=
  if USE_HR_TIMERS then EvHrtimerCancel else EvDelTimerSync.

(** What the release callback does for line [p], in order. *)
Definition teardown_events (USE_HR_TIMERS : bool) (p : N) : list (N * event) :=
  [(p, cancel_event USE_HR_TIMERS); (p, EvGpiodSetValue LOGIC_LOW);
   (p, EvGpiodPut); (p, EvListDel); (p, EvKfree)].

(** A driver with one line, bound at address 16, on which two more
    references were taken. *)
Definition one_line_three_refs : driver :=
  kobject_gets 2 16 (snd (initialize_gls false 16 "led0" 0 empty_driver)).

(** ** The duty cycle, as a function *)

(** What one run of the state machine in the callbacks does to
    [(pin_logic_level, counter)], for a level that is HIGH or LOW. *)
Definition next_phase (on off level c : Z) : Z * Z :=
  if level =? LOGIC_HIGH then
    if c =? on then
      if 0 <? off then (LOGIC_LOW, int_wrap (c + 1)) else (LOGIC_HIGH, 0)
    else (LOGIC_HIGH, int_wrap (c + 1))
  else
    if c =? int_wrap (on + off) then (LOGIC_HIGH, 1)
    else (LOGIC_LOW, int_wrap (c + 1)).

(** The level the periodicity law asks for on tick number [i] (from 0):
    HIGH on the first [on] ticks of each period of [on + off], LOW on the
    rest. *)
Definition wave (on off i : Z) : Z :=
  if i mod (on + off) <? on then LOGIC_HIGH else LOGIC_LOW.

Definition wave_from (on off : Z) (i : nat) (n : nat) : list Z :=
  List.map (fun j => wave on off (Z.of_nat j)) (seq i n).

(** An enabled line whose timer is queued. *)
Definition armed (g : gpio_line_state) : Prop :=
  pin_ctl_enabled g <> 0 /\ pending (timer g) = true.

Definition same_cycles (g g' : gpio_line_state) : Prop :=
  on_cycles g' = on_cycles g /\ off_cycles g' = off_cycles g.

(** [led0] with [on_cycles = 0] (and the default [off_cycles = 1]), then
    started. *)
Definition zero_on (USE_HR_TIMERS : bool) : gpio_line_state :=
  state_of ((write_sysfs_attribute USE_HR_TIMERS 250 "on_cycles" "0" 2 ;;
             started USE_HR_TIMERS 250 "2") led0).

(** Where a line stands after [i] ticks of a run that began with
    [counter = 0] and the level HIGH: the counter is one more than the
    position of the last tick in its period, and the level is that of the
    last tick. *)
Definition in_phase (on off : Z) (g : gpio_line_state) (i : nat) : Prop :=
  on_cycles g = on /\ off_cycles g = off /\ armed g
  /\ match i with
     | O => counter g = 0 /\ pin_logic_level g = LOGIC_HIGH
     | S j => counter g = Z.of_nat j mod (on + off) + 1
              /\ pin_logic_level g = wave on off (Z.of_nat j)
     end.

(** [led0] with [on_cycles = 2] and [off_cycles = 3], then started. *)
Definition two_on_three_off (USE_HR_TIMERS : bool) : gpio_line_state :=
  state_of ((write_sysfs_attribute USE_HR_TIMERS 250 "on_cycles" "2" 2 ;;
             write_sysfs_attribute USE_HR_TIMERS 250 "off_cycles" "3" 2 ;;
             started USE_HR_TIMERS 250 "2") led0).

(** ** Frequencies *)

(** Timer units per second of the build: microseconds with high-resolution
    timers, milliseconds otherwise. *)
Definition units_per_second (USE_HR_TIMERS : bool) : Z :=
  if USE_HR_TIMERS then US_PER_SEC else MS_PER_SEC.

(** The frequency [set_gls_frequency] works with: the low-resolution build
    replaces a request above [HZ] by [HZ]. *)
Definition effective_freq (USE_HR_TIMERS : bool) (HZ freq : Z) : Z :=
  if USE_HR_TIMERS then freq else if HZ <? freq then HZ else freq.

(** ** Runs of one line *)

(** What can happen to a bound line: a write or a read of one of its sysfs
    attributes, or an expiry of its timer. *)
Inductive op : Type :=
| OpWrite (attribute buf : string) (count : Z)
| OpRead (var0 : Z) (attribute : string)
| OpExpire.

Definition run_op (USE_HR_TIMERS : bool) (HZ : Z) (o : op) : M unit :=
  match o with
  | OpWrite attribute buf count =>
      write_sysfs_attribute USE_HR_TIMERS HZ attribute buf count ;; ret tt
  | OpRead var0 attribute =>
      read_sysfs_attribute USE_HR_TIMERS var0 attribute ;; ret tt
  | OpExpire => expire_timer USE_HR_TIMERS
  end.

(** The states a line can be in: freshly bound, or one completed operation
    after a state it can be in. *)
Inductive reachable (USE_HR_TIMERS : bool) (HZ : Z) : gpio_line_state -> Prop :=
| reach_fresh (device_name : string) :
    reachable USE_HR_TIMERS HZ (fresh_line device_name)
| reach_step (g g' : gpio_line_state) (o : op) (tr : list event) :
    reachable USE_HR_TIMERS HZ g ->
    run_op USE_HR_TIMERS HZ o g = Ret tt g' tr ->
    reachable USE_HR_TIMERS HZ g'.

(** What holds of a line in every such state. *)
Definition line_ok (g : gpio_line_state) : Prop :=
  (pin_ctl_enabled g = 0 \/ pin_ctl_enabled g = 1)
  /\ (pin_logic_level g = LOGIC_LOW \/ pin_logic_level g = LOGIC_HIGH)
  /\ 0 <= on_cycles g /\ 0 <= off_cycles g /\ 0 <= pulse_period g
  /\ (pin_ctl_enabled g = 0 ->
      pin_logic_level g = LOGIC_LOW
      /\ pending (timer g) = false
      /\ value (gpio_descriptor g) = LOGIC_LOW)
  /\ (pin_logic_level g = LOGIC_HIGH -> value (gpio_descriptor g) = LOGIC_HIGH)
  /\ held (gpio_descriptor g) = true
  /\ kobj g = {| kref := 1 |}.

(** ** Binding a device *)

(** What the kernel hands to [gpio_probe_func] for one device: the result
    of [of_property_read_string] (return code and the "name" property), of
    [gpiod_get] ([Some e] when [IS_ERR(desc)], with [e = PTR_ERR(desc)]), of
    [kzalloc] (the address of the zeroed block, or [None] for NULL) and of
    [kobject_init_and_add]. *)
Record probe_env : Type := {
  of_property_read_string : Z * string;
  gpiod_get : option Z;
  kzalloc : option N;
  kobject_init_and_add : Z
}.

(** [gpio_probe_func].  Besides the return code and the driver, the result
    lists the messages and the kernel calls on a descriptor that no line
    owns. *)
Definition gpio_probe_func (USE_HR_TIMERS : bool) (env : probe_env) (d : driver)
  : Z * driver * list event :=
  let '(rc, of_prop) := of_property_read_string env in
  if negb (rc =? 0) then
    (rc, d, [EvMessage "Failed to read DT property; failed to bind device"])
  else
    match gpiod_get env with
    | Some err =>
        (err, d, [EvMessage "Failed to get GPIO descriptor for device"])
    | None =>
        match kzalloc env with
        | None =>
            (- ENOMEM, d, [EvMessage "Memory allocation failure"; EvGpiodPut])
        | Some gls =>
            let '(rc, d1) :=
              initialize_gls USE_HR_TIMERS gls of_prop (kobject_init_and_add env) d in
            if negb (rc =? 0) then (rc, d1, [])
            else (0, d1, [EvMessage "Bound to device"])
        end
    end.

(** How often [gpiod_put] occurs in a trace. *)
Fixpoint count_gpiod_put (tr : list event) : nat :=
  match tr with
  | [] => O
  | EvGpiodPut :: r => S (count_gpiod_put r)
  | _ :: r => count_gpiod_put r
  end.

(** ** The driver-wide [debug] attribute *)

(** [write_sysfs_driver_attribute] on the file's [static bool debug_mode];
    [var] starts at 0 and [kstrtoint] leaves it alone when it fails. *)
Definition write_sysfs_driver_attribute (buf : string) (count : Z)
           (debug_mode : bool) : Z * bool :=
  let '(rc, var) := kstrtoint buf in
  if rc <? 0 then (rc, debug_mode)
  else (count, negb (var =? 0)).

(** [read_sysfs_driver_attribute]: the text and the return value. *)
Definition read_sysfs_driver_attribute (debug_mode : bool) : string * Z :=
  sprintf_u (if debug_mode then 1 else 0).

(** Whether the probe got as far as holding a gpio descriptor. *)
Definition descriptor_acquired (env : probe_env) : bool :=
  (fst (of_property_read_string env) =? 0)
  && match gpiod_get env with None => true | Some _ => false end.

(** In the low-resolution build a queued timer belongs to an enabled line
    with a positive period, and it was armed for that period. *)
Definition lr_timer_ok (g : gpio_line_state) : Prop :=
  pending (timer g) = true ->
  pin_ctl_enabled g = 1 /\ 0 < pulse_period g
  /\ expires (timer g) = pulse_period g.

(** ** Return values of the store callbacks *)

(** A sysfs store callback reports failure by a negative return value;
    zero or more is the number of bytes it consumed.  The file follows this
    in [write_sysfs_driver_attribute] ([if (rc < 0) return rc;]) and tests
    [kstrtoint]'s result the same way. *)
Definition is_error_return (r : Z) : bool := r <? 0.

(** * Properties *)

(** ** Reasoning about computations *)

Ltac unfold_kernel :=
  unfold gpiod_set_value, gpiod_put, hrtimer_start, hrtimer_forward_now,
    hrtimer_cancel, mod_timer, del_timer, del_timer_sync, counter_post_incr,
    BUG_ON, message.

Ltac unfold_monad := unfold bind, ret, get, modify, emit, raise.

Ltac run_monad := unfold_kernel; unfold_monad; cbn.

(** Closed goals about concrete runs. *)
Ltac by_compute :=
  vm_compute; first [reflexivity | discriminate | intro; discriminate].

Lemma bind_ret_l {A B : Type} (a : A) (k : A -> M B) (g : gpio_line_state) :
  bind (ret a) k g = k a g.
Proof. unfold bind, ret. destruct (k a g); reflexivity. Qed.

Lemma bind_assoc {A B C : Type} (m : M A) (k : A -> M B) (h : B -> M C)
      (g : gpio_line_state) :
  bind (bind m k) h g = bind m (fun a => bind (k a) h) g.
Proof.
  unfold bind. destruct (m g) as [a g1 t1|f g1 t1]; [|reflexivity].
  destruct (k a g1) as [b g2 t2|f g2 t2]; [|reflexivity].
  destruct (h b g2) as [c g3 t3|f g3 t3]; rewrite app_assoc; reflexivity.
Qed.

Lemma bind_Ret {A B : Type} (m : M A) (k : A -> M B) g a g1 t1 :
  m g = Ret a g1 t1 ->
  bind m k g = match k a g1 with
               | Ret b g2 t2 => Ret b g2 (t1 ++ t2)
               | Fault f g2 t2 => Fault f g2 (t1 ++ t2)
               end.
Proof. intros H. unfold bind. rewrite H. reflexivity. Qed.

(** ** Writes that fail validation *)

(** A write whose text [kstrtoint] does not accept (its return code is
    negative) or whose value is negative takes the error exit of
    [write_sysfs_attribute]: it logs one message, leaves every field of the
    line as it was, whatever the attribute and the build, and returns the
    constant [EINVAL] as the source writes it, without a minus sign. *)
Theorem invalid_write_leaves_state :
  forall (USE_HR_TIMERS : bool) (HZ : Z) (attribute buf : string) (count : Z)
         (gls : gpio_line_state),
    fst (kstrtoint buf) < 0 \/ snd (kstrtoint buf) < 0 ->
    write_sysfs_attribute USE_HR_TIMERS HZ attribute buf count gls
    = Ret EINVAL gls [invalid_write_message].
Proof.
  intros hr HZ attribute buf count gls H.
  unfold write_sysfs_attribute.
  destruct (kstrtoint buf) as [rc var]; cbn [fst snd] in H.
  assert (E : (rc <? 0) || (var <? 0) = true).
  { apply orb_true_iff. destruct H; [left | right]; apply Z.ltb_lt; assumption. }
  rewrite E. reflexivity.
Qed.

Lemma invalid_write_leaves_state_witness :
  (fst (kstrtoint "-1") < 0 \/ snd (kstrtoint "-1") < 0)
  /\ write_sysfs_attribute false 250 "on_cycles" "-1" 3 (fresh_line "led0")
     = Ret EINVAL (fresh_line "led0") [invalid_write_message]
  /\ write_sysfs_attribute true 250 "status" "high" 5 (fresh_line "led0")
     = Ret EINVAL (fresh_line "led0") [invalid_write_message].
Proof.
  split; [right; vm_compute; reflexivity|].
  split; apply invalid_write_leaves_state.
  - right; vm_compute; reflexivity.
  - left; vm_compute; reflexivity.
Defined.

(** C5.  The error exit does not report an error to the caller.  Writing
    "-1" (3 bytes) to [on_cycles] of a fresh line takes the error exit and
    leaves the line as it was, but the value returned is [EINVAL = 22], not
    [-EINVAL]: it is not negative, so the caller reads it as 22 bytes
    consumed, and it is the very value an accepted write of 22 bytes
    returns.  The driver-wide store callback of the same file returns the
    negative code for the same kind of input.  Both builds behave so. *)
Theorem invalid_write_is_not_reported :
  forall USE_HR_TIMERS : bool,
    kstrtoint "-1" = (0, -1)
    /\ write_sysfs_attribute USE_HR_TIMERS 250 "on_cycles" "-1" 3 led0
       = Ret 22 led0 [invalid_write_message]
    /\ is_error_return 22 = false
    /\ write_sysfs_attribute USE_HR_TIMERS 250 "on_cycles" "1" 22 led0
       = Ret 22 (set_on_cycles 1 (set_counter 0 led0)) []
    /\ (fst (write_sysfs_driver_attribute "on" 3 false) = - EINVAL
        /\ is_error_return (fst (write_sysfs_driver_attribute "on" 3 false)) = true).
Proof. intros [|]; repeat split. Qed.

(** ** Writes that pass validation *)

(** C9.  A write whose text parses ([kstrtoint] returns 0 or more) to a
    non-negative value is accepted, returns [count], and leaves
    [counter = 0]: the reset comes before the dispatch on the attribute
    name, so it also happens for [freq], for a [status] value that is
    neither 0 nor 1, and for a name that matches no attribute. *)
Theorem accepted_write_resets_counter :
  forall (USE_HR_TIMERS : bool) (HZ : Z) (attribute buf : string) (count : Z)
         (gls : gpio_line_state),
    0 <= fst (kstrtoint buf) -> 0 <= snd (kstrtoint buf) ->
    exists g' tr,
      write_sysfs_attribute USE_HR_TIMERS HZ attribute buf count gls
      = Ret count g' tr
      /\ counter g' = 0.
Proof.
  intros hr HZ attribute buf count gls Hrc Hvar.
  unfold write_sysfs_attribute.
  destruct (kstrtoint buf) as [rc var]; cbn [fst snd] in Hrc, Hvar.
  assert (E : (rc <? 0) || (var <? 0) = false).
  { apply orb_false_iff. split; apply Z.ltb_ge; assumption. }
  rewrite E. unfold set_gls_frequency, KERNEL_HERTZ.
  destruct (String.eqb attribute "status").
  { destruct (var =? LOGIC_LOW); [destruct hr; run_monad; eauto|].
    destruct (var =? LOGIC_HIGH); [|run_monad; eauto].
    run_monad. destruct (0 <? pulse_period gls), hr; cbn; eauto. }
  destruct (String.eqb attribute "freq").
  { destruct hr; run_monad.
    - destruct (pin_ctl_enabled gls =? 0); cbn; [eauto|].
      destruct (0 <? var); cbn; eauto.
    - destruct (HZ <? var); cbn;
        (destruct (pin_ctl_enabled gls =? 0); cbn; [eauto|]).
      + destruct (0 <? HZ); cbn; eauto.
      + destruct (0 <? var); cbn; eauto. }
  destruct (String.eqb attribute "on_cycles"); [run_monad; eauto|].
  destruct (String.eqb attribute "off_cycles"); run_monad; eauto.
Qed.

Lemma accepted_write_resets_counter_witness :
  0 <= fst (kstrtoint "2") /\ 0 <= snd (kstrtoint "2")
  /\ counter (running true 1) = 1
  /\ exists g' tr,
       write_sysfs_attribute true 250 "status" "2" 2 (running true 1)
       = Ret 2 g' tr
       /\ counter g' = 0.
Proof.
  split; [by_compute|]. split; [by_compute|].
  split; [reflexivity|].
  apply (accepted_write_resets_counter true 250 "status" "2" 2 (running true 1));
    by_compute.
Defined.

(** ** Writes to [status] *)

(** The value 2 written to [status] of a running line is not rejected: the
    call returns [count], not [EINVAL], and the counter goes from 1 to 0. *)
Lemma status_write_of_2_is_not_rejected :
  kstrtoint "2" = (0, 2)
  /\ counter (running false 1) = 1
  /\ write_sysfs_attribute false 250 "status" "2" 2 (running false 1)
     = Ret 2 (set_counter 0 (running false 1)) []
  /\ ~ (exists tr,
          write_sysfs_attribute false 250 "status" "2" 2 (running false 1)
          = Ret EINVAL (running false 1) tr).
Proof.
  split; [reflexivity|]. split; [reflexivity|]. split; [reflexivity|].
  intros [tr H]. vm_compute in H. discriminate H.
Qed.

Lemma kstrtoint_accepts_int (buf : string) :
  0 <= fst (kstrtoint buf) ->
  INT_MIN <= snd (kstrtoint buf) <= INT_MAX.
Proof.
  unfold kstrtoint.
  destruct (match buf with
            | String "-"%char r => (true, r)
            | String "+"%char r => (false, r)
            | _ => (false, buf)
            end) as [neg body].
  destruct (parse_integer body 0 0) as [[v n] rest].
  destruct (2 ^ 64 <=? v); [cbn; unfold ERANGE; lia|].
  destruct (n =? 0)%nat; [cbn; unfold EINVAL; lia|].
  destruct (negb _); [cbn; unfold EINVAL; lia|].
  destruct (Z.leb_spec INT_MIN (if neg then - v else v)) as [Hlo|Hlo];
    [|cbn; unfold ERANGE; lia].
  destruct (Z.leb_spec (if neg then - v else v) INT_MAX) as [Hhi|Hhi];
    [|cbn; unfold ERANGE; lia].
  cbn. intros _. split; assumption.
Qed.

(** C3, as the code has it.  A [status] write whose text is not an integer
    that fits an [int], or whose value is negative, takes the error exit:
    nothing faults, the one message is logged and the whole state of the
    line is as before (what that exit returns is not stated here).  A value
    that parses and is neither 0 nor 1, so one from 2 to [INT_MAX], is
    accepted: the call returns [count], sets [counter] to 0, changes no
    other field and makes no kernel call. *)
Theorem status_write_other_value :
  forall (USE_HR_TIMERS : bool) (HZ : Z) (buf : string) (count : Z)
         (gls : gpio_line_state),
    fst (kstrtoint buf) < 0
    \/ (snd (kstrtoint buf) <> LOGIC_LOW /\ snd (kstrtoint buf) <> LOGIC_HIGH) ->
    let w := write_sysfs_attribute USE_HR_TIMERS HZ "status" buf count gls in
    (fst (kstrtoint buf) < 0 \/ snd (kstrtoint buf) < 0 ->
     faulted w = None
     /\ state_of w = gls
     /\ trace_of w = [invalid_write_message])
    /\ (0 <= fst (kstrtoint buf) /\ 0 <= snd (kstrtoint buf) ->
        2 <= snd (kstrtoint buf) <= INT_MAX
        /\ w = Ret count (set_counter 0 gls) []).
Proof.
  intros hr HZ buf count gls H w. subst w.
  pose proof (kstrtoint_accepts_int buf) as Hint.
  unfold write_sysfs_attribute.
  destruct (kstrtoint buf) as [rc var]; cbn [fst snd] in *.
  split.
  - intros Hrej.
    assert (E : (rc <? 0) || (var <? 0) = true).
    { apply orb_true_iff. destruct Hrej; [left | right]; apply Z.ltb_lt; assumption. }
    rewrite E. repeat split.
  - intros [Hrc Hvar].
    assert (E : (rc <? 0) || (var <? 0) = false).
    { apply orb_false_iff. split; apply Z.ltb_ge; assumption. }
    rewrite E.
    destruct H as [H | [H0 H1]]; [lia|].
    split.
    + unfold LOGIC_LOW, LOGIC_HIGH in *. specialize (Hint Hrc). lia.
    + cbn [String.eqb Ascii.eqb Bool.eqb].
      apply Z.eqb_neq in H0, H1. rewrite H0, H1.
      reflexivity.
Qed.

Lemma status_write_other_value_witness :
  write_sysfs_attribute false 250 "status" "7" 2 (running false 1)
  = Ret 2 (set_counter 0 (running false 1)) []
  /\ state_of (write_sysfs_attribute false 250 "status" "-7" 3 (running false 1))
     = running false 1
  /\ state_of (write_sysfs_attribute false 250 "status" "2147483648" 11
                 (running false 1))
     = running false 1.
Proof.
  assert (A1 : fst (kstrtoint "7") < 0
               \/ (snd (kstrtoint "7") <> LOGIC_LOW
                   /\ snd (kstrtoint "7") <> LOGIC_HIGH))
    by (right; split; by_compute).
  assert (A2 : fst (kstrtoint "-7") < 0
               \/ (snd (kstrtoint "-7") <> LOGIC_LOW
                   /\ snd (kstrtoint "-7") <> LOGIC_HIGH))
    by (right; split; by_compute).
  assert (A3 : fst (kstrtoint "2147483648") < 0
               \/ (snd (kstrtoint "2147483648") <> LOGIC_LOW
                   /\ snd (kstrtoint "2147483648") <> LOGIC_HIGH))
    by (left; by_compute).
  assert (B1 : 0 <= fst (kstrtoint "7") /\ 0 <= snd (kstrtoint "7"))
    by (split; by_compute).
  assert (B2 : fst (kstrtoint "-7") < 0 \/ snd (kstrtoint "-7") < 0)
    by (right; by_compute).
  assert (B3 : fst (kstrtoint "2147483648") < 0 \/ snd (kstrtoint "2147483648") < 0)
    by (left; by_compute).
  destruct (status_write_other_value false 250 "7" 2 (running false 1) A1)
    as [_ Hacc].
  destruct (status_write_other_value false 250 "-7" 3 (running false 1) A2)
    as [Hneg _].
  destruct (status_write_other_value false 250 "2147483648" 11 (running false 1) A3)
    as [Hbig _].
  split; [exact (proj2 (Hacc B1))|].
  split; [exact (proj1 (proj2 (Hneg B2))) | exact (proj1 (proj2 (Hbig B3)))].
Defined.

(** ** [set_gls_frequency] *)

Ltac frame_done :=
  do 2 eexists; (split; [reflexivity|]); cbn;
  repeat split; try reflexivity; try congruence;
  try (destruct (gpio_descriptor _); reflexivity).

(** C10.  [set_gls_frequency] returns, and of the stored fields it changes
    only [pulse_period] (and the timer): [pin_logic_level],
    [pin_ctl_enabled], [counter], [on_cycles], [off_cycles], the kobject and
    the name are as before.  On an enabled line it asserts LOGIC_HIGH on the
    gpio exactly once, so a line in its LOW phase keeps
    [pin_logic_level = LOGIC_LOW] while the output is HIGH; on a disabled
    line it touches neither the output nor the timer. *)
Theorem set_gls_frequency_frame :
  forall (USE_HR_TIMERS : bool) (HZ freq : Z) (gls : gpio_line_state),
  exists g' tr,
    set_gls_frequency USE_HR_TIMERS HZ freq gls = Ret tt g' tr
    /\ (pin_logic_level g' = pin_logic_level gls
        /\ pin_ctl_enabled g' = pin_ctl_enabled gls
        /\ counter g' = counter gls
        /\ on_cycles g' = on_cycles gls
        /\ off_cycles g' = off_cycles gls
        /\ kobj g' = kobj gls
        /\ devname g' = devname gls
        /\ held (gpio_descriptor g') = held (gpio_descriptor gls))
    /\ (pin_ctl_enabled gls <> 0 ->
        value (gpio_descriptor g') = LOGIC_HIGH
        /\ output_levels tr = [LOGIC_HIGH])
    /\ (pin_ctl_enabled gls = 0 ->
        gpio_descriptor g' = gpio_descriptor gls
        /\ timer g' = timer gls
        /\ output_levels tr = []).
Proof.
  intros hr HZ freq gls.
  unfold set_gls_frequency, KERNEL_HERTZ.
  destruct hr; run_monad.
  - destruct (Z.eqb_spec (pin_ctl_enabled gls) 0) as [E|E]; cbn;
      [|destruct (0 <? freq); cbn]; frame_done.
  - destruct (HZ <? freq); cbn;
      (destruct (Z.eqb_spec (pin_ctl_enabled gls) 0) as [E|E]; cbn);
      [|destruct (0 <? HZ); cbn| |destruct (0 <? freq); cbn]; frame_done.
Qed.

Lemma set_gls_frequency_frame_witness :
  pin_ctl_enabled (running false 2) <> 0
  /\ pin_logic_level (running false 2) = LOGIC_LOW
  /\ exists g' tr,
       set_gls_frequency false 250 5 (running false 2) = Ret tt g' tr
       /\ pin_logic_level g' = LOGIC_LOW
       /\ counter g' = counter (running false 2)
       /\ value (gpio_descriptor g') = LOGIC_HIGH.
Proof.
  split; [by_compute|]. split; [reflexivity|].
  destruct (set_gls_frequency_frame false 250 5 (running false 2))
    as (g' & tr & E & (Hl & _ & Hc & _) & Hen & _).
  exists g', tr. split; [exact E|]. split; [exact Hl|]. split; [exact Hc|].
  apply Hen. by_compute.
Defined.

(** In the high-resolution build a frequency above one million gives a
    zero [pulse_period], not the period of the resolution limit. *)
Lemma hr_frequency_above_resolution_gives_zero_period :
  0 < 2000000
  /\ pulse_period (state_of (set_gls_frequency true 250 2000000 led0)) = 0
  /\ pulse_period (state_of (set_gls_frequency true 250 US_PER_SEC led0)) = 1.
Proof. repeat split. Qed.

Lemma quot_pos_le (a b : Z) : 0 < b <= a -> 0 < Z.quot a b.
Proof.
  intros H. rewrite Z.quot_div_nonneg by lia.
  apply Z.div_str_pos. lia.
Qed.

(** C4, as the code has it.  For a requested frequency [freq > 0]:
    in the low-resolution build, on a kernel with [0 < HZ <= 1000], the
    period is positive, and a [freq] above [HZ] is clamped to [HZ], giving
    the period of [freq = HZ], which is [MS_PER_SEC / HZ]; in the
    high-resolution build there is no clamp, the period is
    [US_PER_SEC / freq], positive up to [freq = US_PER_SEC] and 0 above. *)
Theorem set_gls_frequency_period :
  forall (HZ freq : Z) (gls : gpio_line_state),
    0 < freq -> 0 < HZ <= MS_PER_SEC ->
    let lr := pulse_period (state_of (set_gls_frequency false HZ freq gls)) in
    let hr := pulse_period (state_of (set_gls_frequency true HZ freq gls)) in
    (0 < lr
     /\ (HZ < freq ->
         lr = pulse_period (state_of (set_gls_frequency false HZ HZ gls))
         /\ lr = Z.quot MS_PER_SEC HZ))
    /\ (hr = Z.quot US_PER_SEC freq
        /\ (freq <= US_PER_SEC -> 0 < hr)
        /\ (US_PER_SEC < freq -> hr = 0)).
Proof.
  intros HZ freq gls Hf HHZ lr hr. subst lr hr.
  assert (Efreq : (0 <? freq) = true) by (apply Z.ltb_lt; lia).
  assert (EHZ : (0 <? HZ) = true) by (apply Z.ltb_lt; lia).
  assert (EHH : (HZ <? HZ) = false) by (apply Z.ltb_ge; lia).
  split.
  - unfold set_gls_frequency, KERNEL_HERTZ. run_monad. rewrite EHH. cbn.
    destruct (Z.ltb_spec HZ freq) as [Hlt|Hge]; cbn.
    + rewrite EHZ.
      assert (0 < Z.quot MS_PER_SEC HZ) by (apply quot_pos_le; lia).
      destruct (pin_ctl_enabled gls =? 0); cbn; (split; [assumption|]);
        intros _; split; reflexivity.
    + rewrite Efreq.
      assert (0 < Z.quot MS_PER_SEC freq) by (apply quot_pos_le; lia).
      destruct (pin_ctl_enabled gls =? 0); cbn; (split; [assumption|]); lia.
  - unfold set_gls_frequency. run_monad. rewrite Efreq.
    destruct (pin_ctl_enabled gls =? 0); cbn;
      (split; [reflexivity|]); (split; intros H;
        [apply quot_pos_le; lia
        | apply Z.quot_small; unfold US_PER_SEC in *; lia]).
Qed.

Lemma set_gls_frequency_period_witness :
  let lr := pulse_period (state_of (set_gls_frequency false 250 5000 led0)) in
  let hr := pulse_period (state_of (set_gls_frequency true 250 5000 led0)) in
  (0 < lr /\ lr = Z.quot MS_PER_SEC 250) /\ (hr = Z.quot US_PER_SEC 5000 /\ 0 < hr).
Proof.
  assert (Hf : 0 < 5000) by lia.
  assert (HHZ : 0 < 250 <= MS_PER_SEC) by (unfold MS_PER_SEC; lia).
  destruct (set_gls_frequency_period 250 5000 led0 Hf HHZ)
    as ((Hpos & Hclamp) & (Hhr & Hhrpos & _)).
  split.
  - split; [exact Hpos|]. apply Hclamp. lia.
  - split; [exact Hhr|]. apply Hhrpos. unfold US_PER_SEC. lia.
Defined.

(** ** Reading [freq] *)

Lemma read_freq_positive_period :
  forall (USE_HR_TIMERS : bool) (var0 : Z) (gls : gpio_line_state),
    pulse_period gls <> 0 ->
    read_sysfs_attribute USE_HR_TIMERS var0 "freq" gls
    = Ret (sprintf_u (Z.quot (if USE_HR_TIMERS then US_PER_SEC else MS_PER_SEC)
                             (pulse_period gls))) gls [].
Proof.
  intros hr var0 gls H. apply Z.eqb_neq in H.
  unfold read_sysfs_attribute. run_monad. destruct hr; rewrite H; reflexivity.
Qed.

(** C7.  Reading [freq] on a line that was just bound, whose
    [pulse_period] is 0, divides by zero in both builds: the division in
    [read_sysfs_attribute] has no guard, so no value is returned. *)
Theorem read_freq_of_fresh_line_divides_by_zero :
  forall (USE_HR_TIMERS : bool) (var0 : Z),
    pulse_period led0 = 0
    /\ read_sysfs_attribute USE_HR_TIMERS var0 "freq" led0
       = Fault DivideError led0 [].
Proof. intros [|] var0; split; reflexivity. Qed.

(** ** Order of effects in the timer callbacks *)

(** On an expiry of the low-resolution timer the timer is armed again
    first and the level is asserted after that. *)
Lemma lr_callback_rearms_before_applying :
  pin_ctl_enabled (running false 1) = 1
  /\ trace_of (expire_timer false (running false 1))
     = [EvModTimer 500; EvGpiodSetValue LOGIC_LOW]
  /\ applies_before_rearm (trace_of (expire_timer false (running false 1)))
     = false
  /\ applies_before_rearm (trace_of (expire_timer true (running true 1)))
     = true.
Proof. repeat split. Qed.

Ltac pick_state :=
  lazymatch goal with
  | |- exists g', Ret _ ?s _ = _ => exists s; reflexivity
  end.

Ltac case_if :=
  match goal with
  | |- context [if ?c then _ else _] => destruct c eqn:?; cbn
  end.

(** C6, as the code has it.  On a tick of an enabled line (one that does
    not trip the [BUG_ON]) the high-resolution callback asserts the new
    level and only then moves the timer forward and asks for a restart; the
    low-resolution callback arms the timer first and asserts the new level
    afterwards. *)
Theorem callback_effect_order :
  forall gls : gpio_line_state,
    pin_ctl_enabled gls <> 0 ->
    (pin_logic_level gls = LOGIC_LOW -> off_cycles gls <> 0) ->
    (exists g',
        hr_interval_cb gls
        = Ret HRTIMER_RESTART g'
            [EvGpiodSetValue (pin_logic_level g');
             EvHrtimerForwardNow (u64_of (u64_of (pulse_period gls) * 1000))])
    /\ (exists g',
          lr_interval_cb gls
          = Ret tt g'
              (EvModTimer (pulse_period gls)
               :: (if pending (timer gls)
                   then [EvMessage "failed to rearm timer"] else [])
               ++ [EvGpiodSetValue (pin_logic_level g')])).
Proof.
  intros gls Hen Hoff.
  apply Z.eqb_neq in Hen.
  split.
  - unfold hr_interval_cb. run_monad. rewrite Hen.
    destruct (Z.eqb_spec (pin_logic_level gls) LOGIC_HIGH) as [Eh|Eh]; cbn.
    { repeat case_if; pick_state. }
    destruct (Z.eqb_spec (pin_logic_level gls) LOGIC_LOW) as [El|El]; cbn.
    { specialize (Hoff El). apply Z.eqb_neq in Hoff. rewrite Hoff. cbn.
      repeat case_if; pick_state. }
    pick_state.
  - unfold lr_interval_cb. run_monad. rewrite Hen.
    destruct (pending (timer gls)); cbn;
      (destruct (Z.eqb_spec (pin_logic_level gls) LOGIC_HIGH) as [Eh|Eh]; cbn;
       [repeat case_if; pick_state|]);
      (destruct (Z.eqb_spec (pin_logic_level gls) LOGIC_LOW) as [El|El]; cbn;
       [specialize (Hoff El); apply Z.eqb_neq in Hoff; rewrite Hoff; cbn;
        repeat case_if; pick_state|]);
      pick_state.
Qed.

Lemma callback_effect_order_witness :
  (exists g',
      hr_interval_cb (running true 1)
      = Ret HRTIMER_RESTART g'
          [EvGpiodSetValue (pin_logic_level g'); EvHrtimerForwardNow 500000000])
  /\ (exists g',
        lr_interval_cb (running false 2)
        = Ret tt g'
            [EvModTimer 500; EvMessage "failed to rearm timer";
             EvGpiodSetValue (pin_logic_level g')]).
Proof.
  split.
  - apply (callback_effect_order (running true 1)).
    + by_compute.
    + intros _. by_compute.
  - apply (callback_effect_order (running false 2)).
    + by_compute.
    + intros _. by_compute.
Defined.

(** ** The assertion in the LOW branch *)

(** C2.  The [BUG_ON] of the LOW branch can be reached through writes and
    ticks alone.  Bind a line, write [freq = 2] and [status = 1], let the
    timer expire twice (the line is now in its LOW phase), write
    [off_cycles = 0]: the write is accepted, the line is enabled with a
    positive period, its level is LOW and [off_cycles] is 0; the next
    expiry trips the assertion.  Both builds behave so. *)
Theorem off_cycles_zero_in_low_phase_hits_BUG :
  forall USE_HR_TIMERS : bool,
    let run :=
      (started USE_HR_TIMERS 250 "2" ;;
       ticks USE_HR_TIMERS 2 ;;
       write_sysfs_attribute USE_HR_TIMERS 250 "off_cycles" "0" 2) led0 in
    faulted run = None
    /\ pin_ctl_enabled (state_of run) = 1
    /\ 0 < pulse_period (state_of run)
    /\ pin_logic_level (state_of run) = LOGIC_LOW
    /\ off_cycles (state_of run) = 0
    /\ faulted (expire_timer USE_HR_TIMERS (state_of run)) = Some BUG.
Proof. intros [|]; repeat split. Qed.

(** ** Teardown *)

Lemma release_func_spec (hr : bool) (p : N) (d : driver) (gls : gpio_line_state) :
  heap d !! p = Some gls ->
  gpio_line_state_release_func hr p d
  = {| heap := delete p (heap d);
       gls_list := list_del p (gls_list d);
       klog := klog d ++ [(p, cancel_event hr); (p, EvGpiodSetValue LOGIC_LOW);
                          (p, EvGpiodPut); (p, EvListDel); (p, EvKfree)] |}.
Proof.
  intros H. unfold gpio_line_state_release_func. rewrite H.
  destruct hr; reflexivity.
Qed.

Lemma kobject_put_above_one (hr : bool) (p : N) (d : driver) (gls : gpio_line_state) :
  heap d !! p = Some gls -> kref (kobj gls) <> 1 ->
  kobject_put hr p d
  = {| heap := <[p := set_kobj {| kref := kref (kobj gls) - 1 |} gls]> (heap d);
       gls_list := gls_list d; klog := klog d |}.
Proof.
  intros H Hn. unfold kobject_put. rewrite H.
  destruct (Z.eqb_spec (kref (kobj gls) - 1) 0); [lia | reflexivity].
Qed.

Lemma kobject_put_last (hr : bool) (p : N) (d : driver) (gls : gpio_line_state) :
  heap d !! p = Some gls -> kref (kobj gls) = 1 ->
  kobject_put hr p d
  = {| heap := delete p (heap d);
       gls_list := list_del p (gls_list d);
       klog := klog d ++ [(p, cancel_event hr); (p, EvGpiodSetValue LOGIC_LOW);
                          (p, EvGpiodPut); (p, EvListDel); (p, EvKfree)] |}.
Proof.
  intros H Hn. unfold kobject_put. rewrite H, Hn. cbn [Z.sub Z.add Z.opp Z.pos_sub Z.eqb].
  erewrite release_func_spec by (cbn; apply lookup_insert_eq).
  cbn. f_equal. apply delete_insert_eq.
Qed.

Lemma kobject_puts_early (hr : bool) (k : nat) :
  forall (p : N) (d : driver) (gls : gpio_line_state),
    heap d !! p = Some gls -> Z.of_nat k < kref (kobj gls) ->
    kobject_puts hr k p d
    = {| heap := <[p := set_kobj {| kref := kref (kobj gls) - Z.of_nat k |} gls]> (heap d);
         gls_list := gls_list d; klog := klog d |}.
Proof.
  induction k as [|k IH]; intros p d gls H Hlt.
  - cbn [kobject_puts]. destruct d as [h l lg]; cbn in *. f_equal.
    rewrite Z.sub_0_r. symmetry. apply insert_id.
    rewrite H. f_equal. destruct gls as [[n] ? ? ? ? ? ? ? ? ?]; reflexivity.
  - cbn [kobject_puts].
    rewrite (kobject_put_above_one hr p d gls H) by lia.
    erewrite IH; [| cbn [heap]; apply lookup_insert_eq
                  | cbn [kobj kref set_kobj]; lia].
    cbn [heap gls_list klog]. f_equal.
    rewrite insert_insert_eq. f_equal.
    unfold set_kobj; cbn.
    replace (kref (kobj gls) - 1 - Z.of_nat k)
      with (kref (kobj gls) - Z.of_nat (S k)) by lia.
    reflexivity.
Qed.

Lemma kobject_puts_S (hr : bool) (k : nat) :
  forall (p : N) (d : driver),
    kobject_puts hr (S k) p d = kobject_put hr p (kobject_puts hr k p d).
Proof.
  induction k as [|k IH]; intros p d; [reflexivity|].
  change (kobject_puts hr (S (S k)) p d)
    with (kobject_puts hr (S k) p (kobject_put hr p d)).
  rewrite IH. reflexivity.
Qed.

(** C8.  [rm_func] is one [kobject_put].  On a live line that holds
    [n + 1] references, each of the first [n] calls of [kobject_put] only
    lowers the count: the line stays allocated and on the list and no kernel
    call is made for it.  The call that takes the count to 0 runs the
    release callback, once: the timer is cancelled synchronously, the output
    is set to LOGIC_LOW, the gpio descriptor is put, the line is taken off
    the list and its memory is freed, in that order; other lines are
    untouched. *)
Theorem teardown_exactly_at_last_put :
  forall (USE_HR_TIMERS : bool) (p : N) (d : driver) (gls : gpio_line_state)
         (n : nat),
    heap d !! p = Some gls ->
    kref (kobj gls) = Z.of_nat (S n) ->
    snd (rm_func USE_HR_TIMERS p d) = kobject_put USE_HR_TIMERS p d
    /\ (forall k : nat, (k <= n)%nat ->
          kobject_puts USE_HR_TIMERS k p d
          = {| heap := <[p := set_kobj {| kref := Z.of_nat (S n) - Z.of_nat k |} gls]>
                         (heap d);
               gls_list := gls_list d;
               klog := klog d |})
    /\ kobject_puts USE_HR_TIMERS (S n) p d
       = {| heap := delete p (heap d);
            gls_list := list_del p (gls_list d);
            klog := klog d ++ teardown_events USE_HR_TIMERS p |}.
Proof.
  intros hr p d gls n H Hn.
  split; [reflexivity|].
  assert (Early : forall k : nat, (k <= n)%nat ->
            kobject_puts hr k p d
            = {| heap := <[p := set_kobj {| kref := Z.of_nat (S n) - Z.of_nat k |} gls]>
                           (heap d);
                 gls_list := gls_list d; klog := klog d |}).
  { intros k Hk. rewrite (kobject_puts_early hr k p d gls H) by lia.
    rewrite Hn. reflexivity. }
  split; [exact Early|].
  rewrite kobject_puts_S, (Early n) by lia.
  erewrite kobject_put_last; [| cbn; apply lookup_insert_eq | cbn; lia].
  cbn. unfold teardown_events. f_equal. apply delete_insert_eq.
Qed.

Lemma teardown_exactly_at_last_put_witness :
  gls_list one_line_three_refs = [16%N]
  /\ gls_list (kobject_puts false 2 16 one_line_three_refs) = [16%N]
  /\ klog (kobject_puts false 2 16 one_line_three_refs) = []
  /\ kobject_puts false 3 16 one_line_three_refs
     = {| heap := delete 16%N (heap one_line_three_refs);
          gls_list := [];
          klog := teardown_events false 16 |}.
Proof.
  assert (H : heap one_line_three_refs !! 16%N
              = Some (set_kobj {| kref := 3 |} led0)) by reflexivity.
  assert (Hn : kref (kobj (set_kobj {| kref := 3 |} led0)) = Z.of_nat 3)
    by reflexivity.
  destruct (teardown_exactly_at_last_put false 16 one_line_three_refs _ 2 H Hn)
    as (_ & Early & Last).
  split; [reflexivity|].
  split; [rewrite (Early 2%nat) by lia; reflexivity|].
  split; [rewrite (Early 2%nat) by lia; reflexivity|].
  rewrite Last. reflexivity.
Defined.

(** ** The duty cycle *)

(** One expiry on an armed line runs [next_phase], asserts the new level
    and leaves the line armed. *)
Lemma expire_timer_step (hr : bool) (g : gpio_line_state) :
  armed g ->
  pin_logic_level g = LOGIC_HIGH \/ pin_logic_level g = LOGIC_LOW ->
  (pin_logic_level g = LOGIC_LOW -> off_cycles g <> 0) ->
  exists g' tr,
    expire_timer hr g = Ret tt g' tr
    /\ armed g' /\ same_cycles g g'
    /\ (pin_logic_level g', counter g')
       = next_phase (on_cycles g) (off_cycles g) (pin_logic_level g) (counter g)
    /\ output_levels tr = [pin_logic_level g'].
Proof.
  intros [Hen Hp] Hlvl Hoff.
  pose proof Hen as Hen'. apply Z.eqb_neq in Hen'.
  unfold expire_timer, hr_interval_cb, lr_interval_cb, next_phase.
  destruct hr; run_monad; rewrite Hp; cbn; rewrite Hen'; cbn;
    (destruct Hlvl as [E|E]; rewrite E; cbn;
     [| specialize (Hoff E); apply Z.eqb_neq in Hoff; rewrite Hoff; cbn]);
    repeat case_if;
    do 2 eexists; (split; [reflexivity|]); cbn;
    repeat split; try assumption; rewrite E; reflexivity.
Qed.

Lemma int_wrap_small (z : Z) : INT_MIN <= z <= INT_MAX -> int_wrap z = z.
Proof.
  unfold INT_MIN, INT_MAX, int_wrap. intros H.
  rewrite Z.mod_small; lia.
Qed.

Lemma succ_mod (j P : Z) :
  0 < P -> 0 <= j ->
  (j + 1) mod P = if j mod P + 1 =? P then 0 else j mod P + 1.
Proof.
  intros HP Hj.
  pose proof (Z.mod_pos_bound j P HP) as Hr.
  pose proof (Z.div_mod j P ltac:(lia)) as Hdm.
  destruct (Z.eqb_spec (j mod P + 1) P) as [E|E].
  - symmetry. apply (Z.mod_unique_pos (j + 1) P (j / P + 1) 0); lia.
  - symmetry. apply (Z.mod_unique_pos (j + 1) P (j / P) (j mod P + 1)); lia.
Qed.

Lemma output_levels_app (t1 t2 : list event) :
  output_levels (t1 ++ t2) = output_levels t1 ++ output_levels t2.
Proof.
  induction t1 as [|e t1 IH]; [reflexivity|].
  destruct e; cbn; rewrite IH; reflexivity.
Qed.

Lemma wave_level (on off i : Z) :
  wave on off i = LOGIC_HIGH \/ wave on off i = LOGIC_LOW.
Proof. unfold wave. destruct (_ <? _); [left | right]; reflexivity. Qed.

Lemma next_phase_high (on off c : Z) :
  next_phase on off LOGIC_HIGH c
  = if c =? on then
      if 0 <? off then (LOGIC_LOW, int_wrap (c + 1)) else (LOGIC_HIGH, 0)
    else (LOGIC_HIGH, int_wrap (c + 1)).
Proof. reflexivity. Qed.

Lemma next_phase_low (on off c : Z) :
  next_phase on off LOGIC_LOW c
  = if c =? int_wrap (on + off) then (LOGIC_HIGH, 1)
    else (LOGIC_LOW, int_wrap (c + 1)).
Proof. reflexivity. Qed.

Lemma next_phase_start (on off : Z) :
  1 <= on -> next_phase on off LOGIC_HIGH 0 = (LOGIC_HIGH, 1).
Proof.
  intros Hon. rewrite next_phase_high.
  destruct (Z.eqb_spec 0 on); [lia | reflexivity].
Qed.

(** From the state that follows tick [j] the state machine moves to the
    state that follows tick [j + 1]. *)
Lemma next_phase_wave (on off j : Z) :
  1 <= on -> 1 <= off -> on + off <= INT_MAX -> 0 <= j ->
  next_phase on off (wave on off j) (j mod (on + off) + 1)
  = (wave on off (j + 1), (j + 1) mod (on + off) + 1).
Proof.
  intros Hon Hoff Hmax Hj. unfold INT_MAX in Hmax.
  pose proof (Z.mod_pos_bound j (on + off) ltac:(lia)) as Hr.
  unfold wave. rewrite (succ_mod j (on + off)) by lia.
  set (r := j mod (on + off)) in *.
  destruct (Z.ltb_spec r on) as [Hlt|Hge].
  - rewrite next_phase_high.
    destruct (Z.eqb_spec (r + 1) (on + off)); [lia|].
    rewrite int_wrap_small by (unfold INT_MIN, INT_MAX; lia).
    destruct (Z.eqb_spec (r + 1) on) as [Em|Em].
    + destruct (Z.ltb_spec 0 off); [|lia].
      destruct (Z.ltb_spec (r + 1) on); [lia | reflexivity].
    + destruct (Z.ltb_spec (r + 1) on); [reflexivity | lia].
  - rewrite next_phase_low.
    rewrite (int_wrap_small (on + off)) by (unfold INT_MIN, INT_MAX; lia).
    destruct (Z.eqb_spec (r + 1) (on + off)) as [Em|Em].
    + destruct (Z.ltb_spec 0 on); [reflexivity | lia].
    + rewrite int_wrap_small by (unfold INT_MIN, INT_MAX; lia).
      destruct (Z.ltb_spec (r + 1) on); [lia | reflexivity].
Qed.

Section Periodic.

Variables on off : Z.
Hypothesis Hon : 1 <= on.
Hypothesis Hmax : on + off <= INT_MAX.

(** With at least one off cycle, a tick takes the line from phase [i] to
    phase [i + 1] and asserts the level of tick [i]. *)
Lemma in_phase_step (hr : bool) (g : gpio_line_state) (i : nat) :
  1 <= off ->
  in_phase on off g i ->
  exists g' tr,
    expire_timer hr g = Ret tt g' tr
    /\ in_phase on off g' (S i)
    /\ output_levels tr = [wave on off (Z.of_nat i)].
Proof.
  intros Hoff (Eon & Eoff & Harm & Hi).
  assert (Hlvl : pin_logic_level g = LOGIC_HIGH \/ pin_logic_level g = LOGIC_LOW).
  { destruct i; [left; apply Hi|]. destruct Hi as [_ ->]. apply wave_level. }
  destruct (expire_timer_step hr g Harm Hlvl) as (g' & tr & E & Harm' & [Son Soff] & Hnext & Hout).
  { intros _. lia. }
  exists g', tr. split; [exact E|].
  rewrite Eon, Eoff in *.
  assert (Hgoal : (pin_logic_level g', counter g')
                  = (wave on off (Z.of_nat i), Z.of_nat i mod (on + off) + 1)).
  { rewrite Hnext. destruct i as [|j]; destruct Hi as [Hc Hl]; rewrite Hc, Hl.
    - rewrite Z.mod_0_l by lia.
      replace (wave on off (Z.of_nat 0)) with LOGIC_HIGH.
      + apply next_phase_start; assumption.
      + unfold wave. change (Z.of_nat 0) with 0. rewrite Z.mod_0_l by lia.
        destruct (Z.ltb_spec 0 on); [reflexivity | lia].
    - replace (Z.of_nat (S j)) with (Z.of_nat j + 1) by lia.
      apply next_phase_wave; lia. }
  inversion Hgoal as [[Gl Gc]].
  split.
  - unfold in_phase. repeat split; try assumption; apply Harm'.
  - rewrite Hout, Gl. reflexivity.
Qed.

End Periodic.

Lemma ticks_S (hr : bool) (n : nat) (g g1 : gpio_line_state) (t1 : list event) :
  expire_timer hr g = Ret tt g1 t1 ->
  ticks hr (S n) g
  = match ticks hr n g1 with
    | Ret b g2 t2 => Ret b g2 (t1 ++ t2)
    | Fault f g2 t2 => Fault f g2 (t1 ++ t2)
    end.
Proof. intros H. cbn [ticks]. unfold bind. rewrite H. reflexivity. Qed.

Lemma wave_from_S (on off : Z) (i n : nat) :
  wave_from on off i (S n) = wave on off (Z.of_nat i) :: wave_from on off (S i) n.
Proof. reflexivity. Qed.

(** With at least one on cycle and one off cycle, a run of [n] ticks from
    phase [i] asserts the levels of ticks [i .. i + n - 1] of the wave. *)
Lemma ticks_follow_wave (hr : bool) (on off : Z) :
  1 <= on -> 1 <= off -> on + off <= INT_MAX ->
  forall (n i : nat) (g : gpio_line_state),
    in_phase on off g i ->
    exists g' tr,
      ticks hr n g = Ret tt g' tr
      /\ in_phase on off g' (i + n)
      /\ output_levels tr = wave_from on off i n.
Proof.
  intros Hon Hoff Hmax.
  induction n as [|n IH]; intros i g Hin.
  - exists g, []. rewrite Nat.add_0_r.
    split; [reflexivity|]. split; [assumption | reflexivity].
  - destruct (in_phase_step on off Hon Hmax hr g i Hoff Hin)
      as (g1 & t1 & E1 & Hin1 & Hout1).
    destruct (IH (S i) g1 Hin1) as (g2 & t2 & E2 & Hin2 & Hout2).
    exists g2, (t1 ++ t2).
    rewrite (ticks_S hr n g g1 t1 E1), E2.
    split; [reflexivity|]. split.
    + replace (i + S n)%nat with (S i + n)%nat by lia. exact Hin2.
    + rewrite output_levels_app, Hout1, Hout2, wave_from_S. reflexivity.
Qed.

(** Without off cycles the line stays HIGH: the counter runs from 0 to
    [on_cycles] and starts over. *)
Lemma ticks_stay_high (hr : bool) (on : Z) :
  1 <= on -> on <= INT_MAX ->
  forall (n : nat) (g : gpio_line_state),
    on_cycles g = on -> off_cycles g = 0 -> armed g ->
    pin_logic_level g = LOGIC_HIGH -> 0 <= counter g <= on ->
    exists g' tr,
      ticks hr n g = Ret tt g' tr
      /\ output_levels tr = repeat LOGIC_HIGH n.
Proof.
  intros Hon Hmax.
  induction n as [|n IH]; intros g Eon Eoff Harm Hl Hc.
  - exists g, []. split; reflexivity.
  - destruct (expire_timer_step hr g Harm (or_introl Hl))
      as (g1 & t1 & E1 & Harm1 & [Son Soff] & Hnext & Hout1).
    { intros Hlow. rewrite Hl in Hlow. discriminate Hlow. }
    rewrite Eon, Eoff, Hl, next_phase_high in Hnext.
    change (0 <? 0) with false in Hnext.
    assert (Hg1 : pin_logic_level g1 = LOGIC_HIGH /\ 0 <= counter g1 <= on).
    { unfold INT_MAX in Hmax.
      destruct (Z.eqb_spec (counter g) on).
      - inversion Hnext. split; [reflexivity | lia].
      - rewrite int_wrap_small in Hnext by (unfold INT_MIN, INT_MAX; lia).
        inversion Hnext. split; [reflexivity | lia]. }
    destruct Hg1 as [Hl1 Hc1].
    destruct (IH g1) as (g2 & t2 & E2 & Hout2); try assumption; try congruence.
    exists g2, (t1 ++ t2).
    rewrite (ticks_S hr n g g1 t1 E1), E2.
    split; [reflexivity|].
    rewrite output_levels_app, Hout1, Hout2, Hl1. reflexivity.
Qed.

Lemma wave_no_off (on : Z) (i n : nat) :
  1 <= on -> wave_from on 0 i n = repeat LOGIC_HIGH n.
Proof.
  intros Hon. revert i. induction n as [|n IH]; intros i; [reflexivity|].
  rewrite wave_from_S, IH. cbn [repeat]. f_equal.
  unfold wave. rewrite Z.add_0_r.
  pose proof (Z.mod_pos_bound (Z.of_nat i) on ltac:(lia)).
  destruct (Z.ltb_spec (Z.of_nat i mod on) on); [reflexivity | lia].
Qed.

(** X1.  The periodicity law where it holds: with [on_cycles >= 1], any
    [off_cycles >= 0] and [on_cycles + off_cycles <= INT_MAX], an armed line
    that starts with [counter = 0] and the level HIGH asserts, over any
    number [n] of ticks, HIGH on the first [on_cycles] ticks of every period
    and LOW on the remaining [off_cycles]; no tick faults. *)
Theorem duty_cycle_periodic :
  forall (USE_HR_TIMERS : bool) (g : gpio_line_state) (n : nat),
    1 <= on_cycles g -> 0 <= off_cycles g ->
    on_cycles g + off_cycles g <= INT_MAX ->
    armed g -> counter g = 0 -> pin_logic_level g = LOGIC_HIGH ->
    exists g' tr,
      ticks USE_HR_TIMERS n g = Ret tt g' tr
      /\ output_levels tr = wave_from (on_cycles g) (off_cycles g) 0 n.
Proof.
  intros hr g n Hon Hoff Hmax Harm Hc Hl.
  destruct (Z.eq_dec (off_cycles g) 0) as [E0|E0].
  - rewrite E0 in *. rewrite wave_no_off by assumption.
    apply (ticks_stay_high hr (on_cycles g)); try assumption; try lia; reflexivity.
  - destruct (ticks_follow_wave hr (on_cycles g) (off_cycles g)
                Hon ltac:(lia) Hmax n 0%nat g)
      as (g' & tr & E & _ & Hout).
    { unfold in_phase. repeat split; try assumption; apply Harm. }
    exists g', tr. split; assumption.
Qed.

Lemma duty_cycle_periodic_witness :
  exists g' tr,
    ticks true 7 (two_on_three_off true) = Ret tt g' tr
    /\ output_levels tr = [1; 1; 0; 0; 0; 1; 1].
Proof.
  assert (H1 : 1 <= on_cycles (two_on_three_off true)) by by_compute.
  assert (H2 : 0 <= off_cycles (two_on_three_off true)) by by_compute.
  assert (H3 : on_cycles (two_on_three_off true)
               + off_cycles (two_on_three_off true) <= INT_MAX) by by_compute.
  assert (H4 : armed (two_on_three_off true)) by (split; by_compute).
  assert (H5 : counter (two_on_three_off true) = 0) by reflexivity.
  assert (H6 : pin_logic_level (two_on_three_off true) = LOGIC_HIGH)
    by reflexivity.
  destruct (duty_cycle_periodic true (two_on_three_off true) 7 H1 H2 H3 H4 H5 H6)
    as (g' & tr & E & Hout).
  exists g', tr. split; [exact E|]. rewrite Hout. reflexivity.
Defined.

(** ** The duty cycle with [on_cycles = 0] *)

(** Once the line has gone back to HIGH with [on_cycles = 0], the counter
    is past [on_cycles] and every further tick asserts HIGH. *)
Lemma zero_on_cycles_stays_high (hr : bool) :
  forall (n : nat) (g : gpio_line_state),
    on_cycles g = 0 -> armed g -> pin_logic_level g = LOGIC_HIGH ->
    1 <= counter g -> counter g + Z.of_nat n <= INT_MAX ->
    exists g' tr,
      ticks hr n g = Ret tt g' tr
      /\ output_levels tr = repeat LOGIC_HIGH n.
Proof.
  induction n as [|n IH]; intros g Eon Harm Hl Hc Hmax.
  - exists g, []. split; reflexivity.
  - destruct (expire_timer_step hr g Harm (or_introl Hl))
      as (g1 & t1 & E1 & Harm1 & [Son Soff] & Hnext & Hout1).
    { intros Hlow. rewrite Hl in Hlow. discriminate Hlow. }
    rewrite Eon, Hl, next_phase_high in Hnext.
    unfold INT_MAX in Hmax.
    destruct (Z.eqb_spec (counter g) 0); [lia|].
    rewrite int_wrap_small in Hnext by (unfold INT_MIN, INT_MAX; lia).
    inversion Hnext as [[Hl1 Hc1]].
    destruct (IH g1) as (g2 & t2 & E2 & Hout2);
      try assumption; try congruence; try (unfold INT_MAX; lia).
    exists g2, (t1 ++ t2).
    rewrite (ticks_S hr n g g1 t1 E1), E2.
    split; [reflexivity|].
    rewrite output_levels_app, Hout1, Hout2, Hl1. reflexivity.
Qed.

(** C1.  With [on_cycles = 0] and [off_cycles = 1] the level sequence is
    not periodic.  Write [on_cycles = 0] on a fresh line, then [freq] and
    [status = 1]: the first tick asserts LOW, the second HIGH, and every
    later tick HIGH again (here the next six; [zero_on_cycles_stays_high]
    gives as many as the counter has room for), where the law asks for no
    HIGH tick at all.  Both builds behave so. *)
Theorem zero_on_cycles_sticks_high :
  forall USE_HR_TIMERS : bool,
    on_cycles (zero_on USE_HR_TIMERS) = 0
    /\ off_cycles (zero_on USE_HR_TIMERS) = 1
    /\ pin_ctl_enabled (zero_on USE_HR_TIMERS) = 1
    /\ 0 < pulse_period (zero_on USE_HR_TIMERS)
    /\ counter (zero_on USE_HR_TIMERS) = 0
    /\ pin_logic_level (zero_on USE_HR_TIMERS) = LOGIC_HIGH
    /\ faulted (ticks USE_HR_TIMERS 8 (zero_on USE_HR_TIMERS)) = None
    /\ output_levels (trace_of (ticks USE_HR_TIMERS 8 (zero_on USE_HR_TIMERS)))
       = [0; 1; 1; 1; 1; 1; 1; 1]
    /\ wave_from 0 1 0 8 = [0; 0; 0; 0; 0; 0; 0; 0].
Proof. intros [|]; repeat split. Qed.

Lemma ticks_add (hr : bool) (a b : nat) :
  forall g : gpio_line_state,
    ticks hr (a + b) g = bind (ticks hr a) (fun _ => ticks hr b) g.
Proof.
  induction a as [|a IH]; intros g.
  - cbn [Nat.add ticks]. rewrite bind_ret_l. reflexivity.
  - cbn [Nat.add ticks]. unfold bind at 1 2 3.
    destruct (expire_timer hr g) as [[] g1 t1|f g1 t1]; [|reflexivity].
    rewrite IH. unfold bind.
    destruct (ticks hr a g1) as [[] g2 t2|f g2 t2]; [|reflexivity].
    destruct (ticks hr b g2) as [[] g3 t3|f g3 t3]; rewrite app_assoc; reflexivity.
Qed.

(** The same run, for as long as the counter does not wrap: after the
    first LOW tick all of the next [1 + n] ticks assert HIGH. *)
Lemma zero_on_cycles_long_run (hr : bool) (n : nat) :
  Z.of_nat n < INT_MAX ->
  exists g' tr,
    ticks hr (2 + n) (zero_on hr) = Ret tt g' tr
    /\ output_levels tr = LOGIC_LOW :: LOGIC_HIGH :: repeat LOGIC_HIGH n.
Proof.
  intros Hn.
  assert (E2 : ticks hr 2 (zero_on hr)
               = Ret tt (state_of (ticks hr 2 (zero_on hr)))
                        (trace_of (ticks hr 2 (zero_on hr))))
    by (destruct hr; vm_compute; reflexivity).
  assert (Hout2 : output_levels (trace_of (ticks hr 2 (zero_on hr)))
                  = [LOGIC_LOW; LOGIC_HIGH])
    by (destruct hr; vm_compute; reflexivity).
  assert (Hon : on_cycles (state_of (ticks hr 2 (zero_on hr))) = 0)
    by (destruct hr; vm_compute; reflexivity).
  assert (Harm : armed (state_of (ticks hr 2 (zero_on hr))))
    by (split; destruct hr; by_compute).
  assert (Hl : pin_logic_level (state_of (ticks hr 2 (zero_on hr))) = LOGIC_HIGH)
    by (destruct hr; vm_compute; reflexivity).
  assert (Hc : counter (state_of (ticks hr 2 (zero_on hr))) = 1)
    by (destruct hr; vm_compute; reflexivity).
  rewrite ticks_add. unfold bind.
  destruct (ticks hr 2 (zero_on hr)) as [[] g2 t2|f g2 t2];
    [clear E2 | discriminate E2].
  cbn [state_of trace_of] in *.
  destruct (zero_on_cycles_stays_high hr n g2 Hon Harm Hl)
    as (g' & tr & E & Hout).
  - rewrite Hc. lia.
  - rewrite Hc. unfold INT_MAX in *. lia.
  - exists g', (t2 ++ tr). rewrite E.
    split; [reflexivity|].
    rewrite output_levels_app, Hout2, Hout. reflexivity.
Qed.


(** * Further properties of the sysfs callbacks *)



(** A timer that is not queued does not fire. *)
Lemma expire_timer_idle (hr : bool) (g : gpio_line_state) :
  pending (timer g) = false -> expire_timer hr g = Ret tt g [].
Proof.
  intros H. unfold expire_timer. unfold_monad. rewrite H. reflexivity.
Qed.

Lemma ticks_idle (hr : bool) (n : nat) (g : gpio_line_state) :
  pending (timer g) = false -> ticks hr n g = Ret tt g [].
Proof.
  intros H. induction n as [|n IH]; [reflexivity|].
  rewrite (ticks_S hr n g g [] (expire_timer_idle hr g H)), IH. reflexivity.
Qed.

(** ** Writing 0 to [status] *)


(** ** Writing 1 to [status] *)



(** ** Writing and reading [on_cycles] and [off_cycles] *)

(** X5.  An accepted write to [on_cycles] (or [off_cycles]) stores the value,
    resets the counter, changes nothing else, makes no kernel call and
    returns [count]; a read of the same attribute then prints that value,
    and leaves the line as it is. *)
Theorem cycles_write_then_read :
  forall (USE_HR_TIMERS : bool) (HZ count var0 : Z) (buf : string)
         (g : gpio_line_state),
    0 <= fst (kstrtoint buf) -> 0 <= snd (kstrtoint buf) ->
    let v := snd (kstrtoint buf) in
    (write_sysfs_attribute USE_HR_TIMERS HZ "on_cycles" buf count g
     = Ret count (set_on_cycles v (set_counter 0 g)) []
     /\ read_sysfs_attribute USE_HR_TIMERS var0 "on_cycles"
          (set_on_cycles v (set_counter 0 g))
        = Ret (sprintf_u v) (set_on_cycles v (set_counter 0 g)) [])
    /\ (write_sysfs_attribute USE_HR_TIMERS HZ "off_cycles" buf count g
        = Ret count (set_off_cycles v (set_counter 0 g)) []
        /\ read_sysfs_attribute USE_HR_TIMERS var0 "off_cycles"
             (set_off_cycles v (set_counter 0 g))
           = Ret (sprintf_u v) (set_off_cycles v (set_counter 0 g)) []).
Proof.
  intros hr HZ count var0 buf g Hrc Hvar v. subst v.
  unfold write_sysfs_attribute.
  destruct (kstrtoint buf) as [rc var]; cbn [fst snd] in *.
  assert (E : (rc <? 0) || (var <? 0) = false).
  { apply orb_false_iff. split; apply Z.ltb_ge; assumption. }
  rewrite E. repeat split; reflexivity.
Qed.

Lemma cycles_write_then_read_witness :
  write_sysfs_attribute true 250 "on_cycles" "12" 3 led0
  = Ret 3 (set_on_cycles 12 (set_counter 0 led0)) []
  /\ read_sysfs_attribute true 0 "on_cycles" (set_on_cycles 12 (set_counter 0 led0))
     = Ret (("12" ++ newline)%string, 3) (set_on_cycles 12 (set_counter 0 led0)) [].
Proof.
  assert (H1 : 0 <= fst (kstrtoint "12")) by by_compute.
  assert (H2 : 0 <= snd (kstrtoint "12")) by by_compute.
  destruct (cycles_write_then_read true 250 3 0 "12" led0 H1 H2)
    as ((Hw & Hr) & _).
  split; [exact Hw | exact Hr].
Defined.

(** ** A frequency of zero *)

(** X6.  [set_gls_frequency] with [freq <= 0] sets [pulse_period] to 0 in both
    builds and keeps the stored level.  On an enabled line it also asserts
    HIGH and takes the timer off the queue, so later expiries do nothing:
    the output stays HIGH.  On a disabled line it leaves timer and output
    alone. *)
Theorem frequency_zero_stops_pulses :
  forall (USE_HR_TIMERS : bool) (HZ freq : Z) (g : gpio_line_state) (n : nat),
    freq <= 0 ->
    let g1 := state_of (set_gls_frequency USE_HR_TIMERS HZ freq g) in
    faulted (set_gls_frequency USE_HR_TIMERS HZ freq g) = None
    /\ pulse_period g1 = 0
    /\ pin_logic_level g1 = pin_logic_level g
    /\ (pin_ctl_enabled g <> 0 ->
        pending (timer g1) = false
        /\ value (gpio_descriptor g1) = LOGIC_HIGH
        /\ ticks USE_HR_TIMERS n g1 = Ret tt g1 [])
    /\ (pin_ctl_enabled g = 0 ->
        timer g1 = timer g /\ gpio_descriptor g1 = gpio_descriptor g).
Proof.
  intros hr HZ freq g n Hf g1. subst g1.
  assert (Ef : (0 <? freq) = false) by (apply Z.ltb_ge; lia).
  assert (Eh : HZ < freq -> (0 <? HZ) = false) by (intros; apply Z.ltb_ge; lia).
  unfold set_gls_frequency, KERNEL_HERTZ. run_monad.
  destruct hr.
  - rewrite Ef. cbn.
    destruct (Z.eqb_spec (pin_ctl_enabled g) 0) as [E|E]; cbn;
      repeat split; try reflexivity; try congruence.
    apply ticks_idle. reflexivity.
  - destruct (Z.ltb_spec HZ freq) as [Hlt|Hge]; cbn;
      [rewrite (Eh Hlt) | rewrite Ef]; cbn;
      (destruct (Z.eqb_spec (pin_ctl_enabled g) 0) as [E|E]; cbn;
       repeat split; try reflexivity; try congruence;
       apply ticks_idle; reflexivity).
Qed.

Lemma frequency_zero_stops_pulses_witness :
  let g1 := state_of (set_gls_frequency true 250 0 (running true 2)) in
  pin_logic_level (running true 2) = LOGIC_LOW
  /\ pulse_period g1 = 0
  /\ pin_logic_level g1 = LOGIC_LOW
  /\ value (gpio_descriptor g1) = LOGIC_HIGH
  /\ ticks true 5 g1 = Ret tt g1 [].
Proof.
  assert (Hf : 0 <= 0) by lia.
  assert (Hen : pin_ctl_enabled (running true 2) <> 0) by by_compute.
  destruct (frequency_zero_stops_pulses true 250 0 (running true 2) 5 Hf)
    as (_ & Hp & Hl & Hon & _).
  destruct (Hon Hen) as (_ & Hv & Ht).
  split; [reflexivity|]. split; [exact Hp|]. split; [exact Hl|].
  split; [exact Hv | exact Ht].
Defined.

(** ** Reading back a frequency *)

Lemma pulse_period_after_set (hr : bool) (HZ freq : Z) (g : gpio_line_state) :
  faulted (set_gls_frequency hr HZ freq g) = None
  /\ pulse_period (state_of (set_gls_frequency hr HZ freq g))
     = if 0 <? effective_freq hr HZ freq
       then Z.quot (units_per_second hr) (effective_freq hr HZ freq)
       else 0.
Proof.
  unfold set_gls_frequency, KERNEL_HERTZ, effective_freq, units_per_second.
  destruct hr; run_monad.
  - destruct (pin_ctl_enabled g =? 0); cbn;
      [|destruct (0 <? freq); cbn]; split; reflexivity.
  - destruct (HZ <? freq); cbn;
      (destruct (pin_ctl_enabled g =? 0); cbn);
      [|destruct (0 <? HZ); cbn| |destruct (0 <? freq); cbn]; split; reflexivity.
Qed.

Lemma div_round_trip (u f : Z) :
  0 < f <= u ->
  f <= Z.quot u (Z.quot u f) /\ (u mod f = 0 -> Z.quot u (Z.quot u f) = f).
Proof.
  intros H.
  rewrite (Z.quot_div_nonneg u f) by lia.
  assert (Hp : 0 < u / f) by (apply Z.div_str_pos; lia).
  rewrite Z.quot_div_nonneg by lia.
  split.
  - apply Z.div_le_lower_bound; [lia|].
    rewrite Z.mul_comm. apply Z.mul_div_le. lia.
  - intros Hm.
    assert (Hu : u = f * (u / f)).
    { pose proof (Z.div_mod u f ltac:(lia)). lia. }
    set (p := u / f) in *. rewrite Hu. apply Z.div_mul. lia.
Qed.

(** X7.  After [set_gls_frequency] with a frequency the build can meet
    ([0 < freq <= US_PER_SEC], and [0 < HZ <= MS_PER_SEC] for the
    low-resolution clamp), reading [freq] succeeds, leaves the line as it is
    and prints [units / (units / f)] for the effective frequency [f].
    Because both divisions round down, the value read back is never below
    [f], and it is exactly [f] when [f] divides the number of timer units
    per second. *)
Theorem frequency_read_back :
  forall (USE_HR_TIMERS : bool) (HZ freq var0 : Z) (g : gpio_line_state),
    0 < freq <= US_PER_SEC -> 0 < HZ <= MS_PER_SEC ->
    let f := effective_freq USE_HR_TIMERS HZ freq in
    let g1 := state_of (set_gls_frequency USE_HR_TIMERS HZ freq g) in
    let r := Z.quot (units_per_second USE_HR_TIMERS)
                    (Z.quot (units_per_second USE_HR_TIMERS) f) in
    read_sysfs_attribute USE_HR_TIMERS var0 "freq" g1 = Ret (sprintf_u r) g1 []
    /\ f <= r
    /\ (units_per_second USE_HR_TIMERS mod f = 0 -> r = f).
Proof.
  intros hr HZ freq var0 g Hf HHZ f g1 r.
  destruct (pulse_period_after_set hr HZ freq g) as [_ Hp]. fold g1 f in Hp.
  assert (Hrange : 0 < f <= units_per_second hr).
  { subst f. unfold effective_freq, units_per_second, US_PER_SEC, MS_PER_SEC in *.
    destruct hr; [lia|]. destruct (Z.ltb_spec HZ freq); lia. }
  assert (E : (0 <? f) = true) by (apply Z.ltb_lt; lia).
  rewrite E in Hp.
  destruct (div_round_trip (units_per_second hr) f Hrange) as [Hle Heq].
  assert (Hpos : pulse_period g1 <> 0).
  { rewrite Hp, Z.quot_div_nonneg by lia.
    assert (0 < units_per_second hr / f) by (apply Z.div_str_pos; lia). lia. }
  split; [|split; assumption].
  rewrite (read_freq_positive_period hr var0 g1 Hpos), Hp.
  unfold r, units_per_second. reflexivity.
Qed.

Lemma frequency_read_back_witness :
  let g1 := state_of (set_gls_frequency true 250 3 led0) in
  read_sysfs_attribute true 0 "freq" g1
  = Ret (sprintf_u (Z.quot US_PER_SEC (Z.quot US_PER_SEC 3))) g1 []
  /\ 3 <= Z.quot US_PER_SEC (Z.quot US_PER_SEC 3).
Proof.
  assert (Hf : 0 < 3 <= US_PER_SEC) by (unfold US_PER_SEC; lia).
  assert (HHZ : 0 < 250 <= MS_PER_SEC) by (unfold MS_PER_SEC; lia).
  destruct (frequency_read_back true 250 3 0 led0 Hf HHZ) as (E & Hle & _).
  split; [exact E | exact Hle].
Defined.

(** ** What every reachable state satisfies *)

Ltac ok_split :=
  unfold line_ok; cbn;
  repeat match goal with
         | |- _ /\ _ => split
         end.

Ltac ok_solve :=
  ok_split;
  try assumption; try reflexivity; try lia;
  try (left; reflexivity); try (right; reflexivity);
  try (intros; repeat split; solve [assumption | reflexivity | lia
                                   | discriminate | congruence | tauto]).

Lemma quot_nonneg (a b : Z) : 0 <= a -> 0 <= (if 0 <? b then Z.quot a b else 0).
Proof.
  intros Ha. destruct (Z.ltb_spec 0 b); [|lia].
  apply Z.quot_pos; lia.
Qed.

Lemma line_ok_fresh (device_name : string) : line_ok (fresh_line device_name).
Proof.
  unfold line_ok, fresh_line; cbn.
  repeat split; try lia; try (left; reflexivity); try discriminate.
Qed.

Lemma line_ok_set_gls_frequency (hr : bool) (HZ freq : Z) (g : gpio_line_state) :
  line_ok g -> line_ok (state_of (set_gls_frequency hr HZ freq g)).
Proof.
  intros (Hen & Hl & Hon & Hoff & Hp & Hdis & Hhigh & Hheld & Hk).
  pose proof (quot_nonneg US_PER_SEC freq ltac:(unfold US_PER_SEC; lia)) as Q1.
  pose proof (quot_nonneg MS_PER_SEC freq ltac:(unfold MS_PER_SEC; lia)) as Q2.
  pose proof (quot_nonneg MS_PER_SEC HZ ltac:(unfold MS_PER_SEC; lia)) as Q3.
  unfold set_gls_frequency, KERNEL_HERTZ.
  destruct hr; run_monad.
  - destruct (Z.eqb_spec (pin_ctl_enabled g) 0) as [E|E]; cbn;
      [|destruct (0 <? freq) eqn:Ef; cbn]; ok_solve.
  - destruct (HZ <? freq); cbn;
      (destruct (Z.eqb_spec (pin_ctl_enabled g) 0) as [E|E]; cbn);
      [|destruct (0 <? HZ) eqn:Eh; cbn| |destruct (0 <? freq) eqn:Ef; cbn];
      ok_solve.
Qed.

Lemma state_of_then_ret {A : Type} (m : M A) (g : gpio_line_state) :
  state_of (bind m (fun _ => ret tt) g) = state_of (m g).
Proof. unfold bind, ret. destruct (m g); reflexivity. Qed.

Lemma line_ok_write (hr : bool) (HZ count : Z) (attribute buf : string)
      (g : gpio_line_state) :
  line_ok g ->
  line_ok (state_of (write_sysfs_attribute hr HZ attribute buf count g)).
Proof.
  intros Hok. unfold write_sysfs_attribute.
  destruct (kstrtoint buf) as [rc var].
  destruct (Z.ltb_spec rc 0) as [Hrc|Hrc]; [exact Hok|].
  destruct (Z.ltb_spec var 0) as [Hvar|Hvar]; [exact Hok|].
  cbn [orb].
  assert (Hc : line_ok (set_counter 0 g)).
  { destruct Hok as (Hen & Hl & Hon & Hoff & Hp & Hdis & Hhigh & Hheld & Hk).
    ok_solve. }
  destruct (String.eqb attribute "status").
  { destruct Hok as (Hen & Hl & Hon & Hoff & Hp & Hdis & Hhigh & Hheld & Hk).
    destruct (var =? LOGIC_LOW); [destruct hr; run_monad; ok_solve|].
    destruct (var =? LOGIC_HIGH); [|run_monad; ok_solve].
    run_monad. destruct (0 <? pulse_period g), hr; cbn; ok_solve. }
  destruct (String.eqb attribute "freq").
  { pose proof (line_ok_set_gls_frequency hr HZ var (set_counter 0 g) Hc) as H.
    unfold bind, modify, ret. cbn.
    destruct (set_gls_frequency hr HZ var (set_counter 0 g)); exact H. }
  destruct Hok as (Hen & Hl & Hon & Hoff & Hp & Hdis & Hhigh & Hheld & Hk).
  destruct (String.eqb attribute "on_cycles"); [run_monad; ok_solve|].
  destruct (String.eqb attribute "off_cycles"); run_monad; ok_solve.
Qed.

Lemma line_ok_read (hr : bool) (var0 : Z) (attribute : string)
      (g : gpio_line_state) :
  state_of (read_sysfs_attribute hr var0 attribute g) = g.
Proof.
  unfold read_sysfs_attribute. run_monad.
  repeat case_if; reflexivity.
Qed.

Lemma line_ok_expire (hr : bool) (g : gpio_line_state) :
  line_ok g -> line_ok (state_of (expire_timer hr g)).
Proof.
  intros Hok.
  destruct (pending (timer g)) eqn:Hp;
    [|rewrite (expire_timer_idle hr g Hp); exact Hok].
  destruct Hok as (Hen & Hl & Hon & Hoff & Hper & Hdis & Hhigh & Hheld & Hk).
  assert (E : pin_ctl_enabled g = 1).
  { destruct Hen as [E0|E1]; [|exact E1].
    destruct (Hdis E0) as (_ & Hnp & _). congruence. }
  unfold expire_timer, hr_interval_cb, lr_interval_cb.
  destruct hr; run_monad; rewrite Hp; cbn; rewrite E; cbn;
    (destruct Hl as [L|L]; rewrite L; cbn; repeat case_if; ok_solve).
Qed.

(** X8.  Whatever is written to or read from a line and however often its
    timer expires, in either build: [pin_ctl_enabled] is 0 or 1, the stored
    level is LOW or HIGH, the cycle counts and the period are not negative,
    a disabled line is LOW with LOW output and no timer queued, a stored
    HIGH level means the output was last set HIGH, and the descriptor stays
    held with the reference count at 1. *)
Theorem reachable_line_ok :
  forall (USE_HR_TIMERS : bool) (HZ : Z) (g : gpio_line_state),
    reachable USE_HR_TIMERS HZ g -> line_ok g.
Proof.
  intros hr HZ g H. induction H as [name | g g' o tr _ IH Hrun].
  - apply line_ok_fresh.
  - assert (Hg' : g' = state_of (run_op hr HZ o g)) by (rewrite Hrun; reflexivity).
    rewrite Hg'. destruct o as [attribute buf count | var0 attribute |]; cbn [run_op].
    + rewrite state_of_then_ret. apply line_ok_write. exact IH.
    + rewrite state_of_then_ret, line_ok_read. exact IH.
    + apply line_ok_expire. exact IH.
Qed.

Lemma reachable_line_ok_witness :
  reachable false 250 (running false 1) /\ line_ok (running false 1).
Proof.
  assert (R : reachable false 250 (running false 1)).
  { eapply (reach_step false 250 _ _ OpExpire).
    - eapply (reach_step false 250 _ _ (OpWrite "status" "1" 2)).
      + eapply (reach_step false 250 _ _ (OpWrite "freq" "2" 2)).
        * apply (reach_fresh false 250 "led0").
        * vm_compute. reflexivity.
      + vm_compute. reflexivity.
    - vm_compute. reflexivity. }
  split; [exact R|]. exact (reachable_line_ok false 250 _ R).
Defined.

(** ** Enabling and setting the frequency, in either order *)



(** * Binding and removing a device *)

Lemma list_del_head (p : N) (l : list N) :
  p ∉ l -> list_del p (p :: l) = l.
Proof.
  intros Hp. unfold list_del. cbn [List.filter].
  rewrite N.eqb_refl. cbn [negb].
  induction l as [|q l IH]; [reflexivity|].
  cbn [List.filter].
  apply not_elem_of_cons in Hp. destruct Hp as [Hne Hp].
  destruct (N.eqb_spec q p) as [E|E]; [congruence|].
  cbn [negb]. rewrite (IH Hp). reflexivity.
Qed.

Lemma put_after_initialize (hr : bool) (p : N) (name : string) (d : driver) :
  heap d !! p = None -> p ∉ gls_list d ->
  kobject_put hr p
    {| heap := <[p := fresh_line name]> (heap d);
       gls_list := p :: gls_list d; klog := klog d |}
  = {| heap := heap d; gls_list := gls_list d;
       klog := klog d ++ teardown_events hr p |}.
Proof.
  intros Hh Hl.
  erewrite kobject_put_last;
    [| cbn [heap]; apply lookup_insert_eq | reflexivity].
  cbn [heap gls_list klog]. unfold teardown_events.
  rewrite delete_insert_id by exact Hh.
  rewrite list_del_head by exact Hl. reflexivity.
Qed.

(** X10.  [initialize_gls] on a fresh block.  When [kobject_init_and_add]
    succeeds the line is live: it holds the defaults (disabled, LOW, period
    0, one on and one off cycle, counter 0, one reference) and is at the
    head of the list.  When it fails the function returns the error after
    dropping the only reference, which runs the release callback: the line
    is off the list and freed again, so heap and list are as before, and
    the descriptor has been put once. *)
Theorem initialize_gls_binds_or_unwinds :
  forall (USE_HR_TIMERS : bool) (p : N) (device_name : string) (rc : Z)
         (d : driver),
    heap d !! p = None -> p ∉ gls_list d ->
    (rc = 0 ->
     initialize_gls USE_HR_TIMERS p device_name rc d
     = (0, {| heap := <[p := fresh_line device_name]> (heap d);
              gls_list := p :: gls_list d;
              klog := klog d |}))
    /\ (rc <> 0 ->
        initialize_gls USE_HR_TIMERS p device_name rc d
        = (rc, {| heap := heap d;
                  gls_list := gls_list d;
                  klog := klog d ++ teardown_events USE_HR_TIMERS p |})).
Proof.
  intros hr p name rc d Hh Hl. unfold initialize_gls. split; intros Hrc.
  - subst rc. reflexivity.
  - apply Z.eqb_neq in Hrc. rewrite Hrc.
    rewrite put_after_initialize by assumption. reflexivity.
Qed.

Lemma initialize_gls_binds_or_unwinds_witness :
  initialize_gls true 16 "led0" (- ENOMEM) empty_driver
  = (- ENOMEM, {| heap := ∅; gls_list := [];
                  klog := teardown_events true 16 |})
  /\ initialize_gls true 16 "led0" 0 empty_driver
     = (0, {| heap := <[16%N := fresh_line "led0"]> ∅;
              gls_list := [16%N]; klog := [] |}).
Proof.
  assert (Hh : heap empty_driver !! 16%N = None) by reflexivity.
  assert (Hl : 16%N ∉ gls_list empty_driver) by (cbn; apply not_elem_of_nil).
  destruct (initialize_gls_binds_or_unwinds true 16 "led0" (- ENOMEM)
              empty_driver Hh Hl) as [_ Hfail].
  destruct (initialize_gls_binds_or_unwinds true 16 "led0" 0
              empty_driver Hh Hl) as [Hok _].
  split.
  - apply Hfail. unfold ENOMEM. lia.
  - apply Hok. reflexivity.
Defined.

(** X11.  Binding a device and removing it again, with no other reference
    taken in between, gives back the heap and the list of lines as they
    were; the log gains exactly the release callback's calls. *)
Theorem bind_then_remove :
  forall (USE_HR_TIMERS : bool) (p : N) (device_name : string) (d : driver),
    heap d !! p = None -> p ∉ gls_list d ->
    rm_func USE_HR_TIMERS p
      (snd (initialize_gls USE_HR_TIMERS p device_name 0 d))
    = (0, {| heap := heap d;
             gls_list := gls_list d;
             klog := klog d ++ teardown_events USE_HR_TIMERS p |}).
Proof.
  intros hr p name d Hh Hl.
  unfold rm_func, initialize_gls. cbn [Z.eqb snd].
  rewrite put_after_initialize by assumption. reflexivity.
Qed.

Lemma bind_then_remove_witness :
  rm_func false 16 (snd (initialize_gls false 16 "led0" 0 empty_driver))
  = (0, {| heap := ∅; gls_list := []; klog := teardown_events false 16 |}).
Proof.
  apply (bind_then_remove false 16 "led0" empty_driver).
  - reflexivity.
  - cbn. apply not_elem_of_nil.
Defined.

(** X12.  [gpio_probe_func] either binds the line or leaves no trace of it.
    Given that [kzalloc] returns unused memory and that an error pointer
    from [gpiod_get] carries a non-zero code: when the probe returns 0 the
    new line, in its default state, is on the heap and at the head of the
    list, and its descriptor has not been put; when it returns anything
    else, heap and list are as before, and the descriptor, if one was
    obtained, has been put exactly once (by the probe itself when the
    allocation fails, by the release callback when the kobject cannot be
    added). *)
Theorem gpio_probe_func_binds_or_leaves :
  forall (USE_HR_TIMERS : bool) (env : probe_env) (d : driver),
    (forall p, kzalloc env = Some p -> heap d !! p = None /\ p ∉ gls_list d) ->
    (forall e, gpiod_get env = Some e -> e <> 0) ->
    let r := gpio_probe_func USE_HR_TIMERS env d in
    let rc := fst (fst r) in
    let d' := snd (fst r) in
    exists extra,
      klog d' = klog d ++ extra
      /\ (rc = 0 ->
          exists p,
            kzalloc env = Some p
            /\ heap d' = <[p := fresh_line (snd (of_property_read_string env))]> (heap d)
            /\ gls_list d' = p :: gls_list d
            /\ count_gpiod_put (snd r ++ List.map snd extra) = 0%nat)
      /\ (rc <> 0 ->
          heap d' = heap d
          /\ gls_list d' = gls_list d
          /\ count_gpiod_put (snd r ++ List.map snd extra)
             = if descriptor_acquired env then 1%nat else 0%nat).
Proof.
  intros hr [[ofrc name] dget alloc krc] d Hfresh Herr.
  unfold gpio_probe_func, descriptor_acquired.
  cbn [of_property_read_string gpiod_get kzalloc kobject_init_and_add fst snd] in *.
  destruct (Z.eqb_spec ofrc 0) as [E0|E0]; cbn [negb andb].
  2:{ exists []. cbn. rewrite app_nil_r.
      split; [reflexivity|]. split; [intros; contradiction|].
      intros _. repeat split. }
  destruct dget as [e|].
  { pose proof (Herr e eq_refl) as He.
    exists []. cbn. rewrite app_nil_r.
    split; [reflexivity|]. split; [intros; contradiction|].
    intros _. repeat split. }
  destruct alloc as [p|].
  2:{ exists []. cbn. rewrite app_nil_r.
      split; [reflexivity|]. split; [intros H; discriminate H|].
      intros _. repeat split. }
  destruct (Hfresh p eq_refl) as [Hh Hl].
  unfold initialize_gls.
  destruct (Z.eqb_spec krc 0) as [Ek|Ek].
  - subst krc. cbn. exists []. rewrite app_nil_r.
    split; [reflexivity|]. split; [|intros H; contradiction].
    intros _. exists p. repeat split.
  - rewrite put_after_initialize by assumption.
    assert (Ek' : (krc =? 0) = false) by (apply Z.eqb_neq; exact Ek).
    rewrite Ek'. cbn.
    exists (teardown_events hr p).
    split; [reflexivity|]. split; [intros; contradiction|].
    intros _. repeat split. destruct hr; reflexivity.
Qed.

Lemma gpio_probe_func_binds_or_leaves_witness :
  let env := {| of_property_read_string := (0, "led0"); gpiod_get := None;
                kzalloc := Some 16%N; kobject_init_and_add := - ENOMEM |} in
  let r := gpio_probe_func false env empty_driver in
  fst (fst r) = - ENOMEM
  /\ exists extra,
       klog (snd (fst r)) = extra
       /\ heap (snd (fst r)) = ∅
       /\ gls_list (snd (fst r)) = []
       /\ count_gpiod_put (snd r ++ List.map snd extra) = 1%nat.
Proof.
  intros env r.
  assert (Hfresh : forall p, kzalloc env = Some p ->
                     heap empty_driver !! p = None /\ p ∉ gls_list empty_driver).
  { intros p _. split; [reflexivity | cbn; apply not_elem_of_nil]. }
  assert (Herr : forall e, gpiod_get env = Some e -> e <> 0).
  { intros e H. discriminate H. }
  assert (Hrc : fst (fst r) <> 0) by by_compute.
  destruct (gpio_probe_func_binds_or_leaves false env empty_driver Hfresh Herr)
    as (extra & Hlog & _ & Hfail).
  destruct (Hfail Hrc) as (Hh & Hl & Hput).
  split; [reflexivity|].
  exists extra. split; [exact Hlog|]. split; [exact Hh|].
  split; [exact Hl | exact Hput].
Defined.

(** * The driver-wide [debug] attribute *)

(** X13.  A write that [kstrtoint] rejects returns its negative error code and
    leaves [debug_mode] alone.  Any other write returns [count] and sets
    [debug_mode] exactly when the value is not 0 (negative values count as
    set), so that a following read prints "1" or "0" accordingly, followed
    by a newline, and returns 2. *)
Theorem debug_attribute_write_then_read :
  forall (buf : string) (count : Z) (debug_mode : bool),
    let w := write_sysfs_driver_attribute buf count debug_mode in
    (fst (kstrtoint buf) < 0 ->
     w = (fst (kstrtoint buf), debug_mode))
    /\ (0 <= fst (kstrtoint buf) ->
        fst w = count
        /\ read_sysfs_driver_attribute (snd w)
           = (((if (snd (kstrtoint buf) =? 0)%Z then "0" else "1") ++ newline)%string,
              2)).
Proof.
  intros buf count dm w. subst w. unfold write_sysfs_driver_attribute.
  destruct (kstrtoint buf) as [rc var]; cbn [fst snd].
  split; intros H.
  - apply Z.ltb_lt in H. rewrite H. reflexivity.
  - apply Z.ltb_ge in H. rewrite H. cbn [fst snd].
    split; [reflexivity|].
    destruct (var =? 0); reflexivity.
Qed.

Lemma debug_attribute_write_then_read_witness :
  write_sysfs_driver_attribute "on" 3 true = (- EINVAL, true)
  /\ read_sysfs_driver_attribute (snd (write_sysfs_driver_attribute "-3" 3 false))
     = (("1" ++ newline)%string, 2).
Proof.
  destruct (debug_attribute_write_then_read "on" 3 true) as [Hrej _].
  destruct (debug_attribute_write_then_read "-3" 3 false) as [_ Hacc].
  split.
  - apply Hrej. by_compute.
  - apply Hacc. by_compute.
Defined.

(** * The duty cycle without on cycles *)

Lemma ticks_seq (hr : bool) (a b : nat) (g g1 g2 : gpio_line_state)
      (t1 t2 : list event) :
  ticks hr a g = Ret tt g1 t1 -> ticks hr b g1 = Ret tt g2 t2 ->
  ticks hr (a + b) g = Ret tt g2 (t1 ++ t2).
Proof.
  intros H1 H2. rewrite ticks_add. unfold bind. rewrite H1, H2. reflexivity.
Qed.

Lemma ticks_one (hr : bool) (g g1 : gpio_line_state) (t1 : list event) :
  expire_timer hr g = Ret tt g1 t1 -> ticks hr 1 g = Ret tt g1 t1.
Proof.
  intros H. rewrite (ticks_S hr 0 g g1 t1 H). cbn [ticks]. unfold ret.
  rewrite app_nil_r. reflexivity.
Qed.

(** In the LOW phase the line stays LOW until the counter reaches
    [on_cycles + off_cycles]. *)
Lemma low_phase_runs_out (hr : bool) (off : Z) :
  off <= INT_MAX ->
  forall (j : nat) (g : gpio_line_state),
    on_cycles g = 0 -> off_cycles g = off -> armed g ->
    pin_logic_level g = LOGIC_LOW ->
    1 <= counter g -> counter g + Z.of_nat j = off ->
    exists g' tr,
      ticks hr j g = Ret tt g' tr
      /\ output_levels tr = repeat LOGIC_LOW j
      /\ on_cycles g' = 0 /\ off_cycles g' = off /\ armed g'
      /\ pin_logic_level g' = LOGIC_LOW /\ counter g' = off.
Proof.
  intros Hmax. unfold INT_MAX in Hmax.
  induction j as [|j IH]; intros g Eon Eoff Harm Hl Hc Hsum.
  - exists g, []. repeat split; try assumption; try apply Harm. lia.
  - destruct (expire_timer_step hr g Harm (or_intror Hl))
      as (g1 & t1 & E1 & Harm1 & [Son Soff] & Hnext & Hout1).
    { intros _. lia. }
    rewrite Eon, Eoff, Hl, next_phase_low in Hnext.
    rewrite (int_wrap_small (0 + off)) in Hnext by (unfold INT_MIN, INT_MAX; lia).
    destruct (Z.eqb_spec (counter g) (0 + off)); [lia|].
    rewrite int_wrap_small in Hnext by (unfold INT_MIN, INT_MAX; lia).
    pose proof (f_equal fst Hnext) as Hl1; cbn [fst] in Hl1.
    pose proof (f_equal snd Hnext) as Hc1; cbn [snd] in Hc1.
    destruct (IH g1) as (g2 & t2 & E2 & Hout2 & Hrest);
      try assumption; try congruence; try lia.
    exists g2, (t1 ++ t2).
    rewrite (ticks_S hr j g g1 t1 E1), E2.
    split; [reflexivity|]. split; [|exact Hrest].
    rewrite output_levels_app, Hout1, Hout2, Hl1. reflexivity.
Qed.

(** X2.  With [on_cycles = 0] and [off_cycles >= 1], a run that starts with
    [counter = 0] and the level HIGH is LOW for the first [off_cycles]
    ticks and HIGH on every tick after that, for as long as the counter has
    room to grow (up to [INT_MAX] ticks): when the line returns to HIGH the
    counter is set to 1, which is already past [on_cycles], so the
    comparison that ends the HIGH phase does not come true again. *)
Theorem zero_on_cycles_low_then_high :
  forall (USE_HR_TIMERS : bool) (g : gpio_line_state) (k n : nat),
    on_cycles g = 0 -> off_cycles g = Z.of_nat (S k) ->
    off_cycles g <= INT_MAX ->
    armed g -> counter g = 0 -> pin_logic_level g = LOGIC_HIGH ->
    Z.of_nat n < INT_MAX ->
    exists g' tr,
      ticks USE_HR_TIMERS (S k + (1 + n)) g = Ret tt g' tr
      /\ output_levels tr
         = repeat LOGIC_LOW (S k) ++ repeat LOGIC_HIGH (1 + n).
Proof.
  intros hr g k n Eon Eoff Hmax Harm Hc Hl Hn.
  pose proof Hmax as Hmax'. unfold INT_MAX in Hmax', Hn.
  (* the first tick leaves the HIGH phase *)
  destruct (expire_timer_step hr g Harm (or_introl Hl))
    as (g1 & t1 & E1 & Harm1 & [Son1 Soff1] & Hnext1 & Hout1).
  { intros Hlow. rewrite Hl in Hlow. discriminate Hlow. }
  rewrite Eon, Hc, Hl, next_phase_high in Hnext1.
  change (0 =? 0) with true in Hnext1.
  destruct (Z.ltb_spec 0 (off_cycles g)); [|lia].
  change (int_wrap (0 + 1)) with 1 in Hnext1.
  pose proof (f_equal fst Hnext1) as Hl1; cbn [fst] in Hl1.
    pose proof (f_equal snd Hnext1) as Hc1; cbn [snd] in Hc1.
  (* the rest of the LOW phase *)
  destruct (low_phase_runs_out hr (off_cycles g) Hmax k g1)
    as (g2 & t2 & E2 & Hout2 & Eon2 & Eoff2 & Harm2 & Hl2 & Hc2);
    try assumption; try congruence; try lia.
  (* back to HIGH, with the counter at 1 *)
  destruct (expire_timer_step hr g2 Harm2 (or_intror Hl2))
    as (g3 & t3 & E3 & Harm3 & [Son3 Soff3] & Hnext3 & Hout3).
  { intros _. lia. }
  rewrite Eon2, Eoff2, Hl2, Hc2, next_phase_low in Hnext3.
  rewrite (int_wrap_small (0 + off_cycles g)) in Hnext3
    by (unfold INT_MIN, INT_MAX; lia).
  destruct (Z.eqb_spec (off_cycles g) (0 + off_cycles g)); [|lia].
  pose proof (f_equal fst Hnext3) as Hl3; cbn [fst] in Hl3.
    pose proof (f_equal snd Hnext3) as Hc3; cbn [snd] in Hc3.
  (* and HIGH from then on *)
  destruct (zero_on_cycles_stays_high hr n g3)
    as (g4 & t4 & E4 & Hout4);
    try assumption; try congruence; try (unfold INT_MAX; lia).
  exists g4, ((t1 ++ t2) ++ (t3 ++ t4)).
  split.
  - apply (ticks_seq hr (S k) (1 + n) g g2 g4).
    + rewrite (ticks_S hr k g g1 t1 E1), E2. reflexivity.
    + apply (ticks_seq hr 1 n g2 g3 g4); [apply ticks_one|]; assumption.
  - rewrite !output_levels_app, Hout1, Hout2, Hout3, Hout4, Hl1, Hl3.
    reflexivity.
Qed.

Lemma zero_on_cycles_low_then_high_witness :
  exists g' tr,
    ticks true (1 + (1 + 6)) (zero_on true) = Ret tt g' tr
    /\ output_levels tr = [0; 1; 1; 1; 1; 1; 1; 1].
Proof.
  assert (H1 : on_cycles (zero_on true) = 0) by reflexivity.
  assert (H2 : off_cycles (zero_on true) = Z.of_nat 1) by reflexivity.
  assert (H3 : off_cycles (zero_on true) <= INT_MAX) by by_compute.
  assert (H4 : armed (zero_on true)) by (split; by_compute).
  assert (H5 : counter (zero_on true) = 0) by reflexivity.
  assert (H6 : pin_logic_level (zero_on true) = LOGIC_HIGH) by reflexivity.
  assert (H7 : Z.of_nat 6 < INT_MAX) by by_compute.
  destruct (zero_on_cycles_low_then_high true (zero_on true) 0 6
              H1 H2 H3 H4 H5 H6 H7) as (g' & tr & E & Hout).
  exists g', tr. split; [exact E | exact Hout].
Defined.

(** * Faults *)

(** X14.  The only fault a timer expiry can raise is the [BUG_ON] of the LOW
    branch, and it raises it exactly when the timer is queued, the line is
    enabled, the stored level is LOW and [off_cycles] is 0. *)
Theorem expire_timer_fault_iff :
  forall (USE_HR_TIMERS : bool) (g : gpio_line_state),
    faulted (expire_timer USE_HR_TIMERS g) <> Some DivideError
    /\ (faulted (expire_timer USE_HR_TIMERS g) = Some BUG
        <-> pending (timer g) = true
            /\ pin_ctl_enabled g <> 0
            /\ pin_logic_level g = LOGIC_LOW
            /\ off_cycles g = 0).
Proof.
  intros hr g.
  unfold expire_timer, hr_interval_cb, lr_interval_cb.
  destruct hr; run_monad;
    (destruct (pending (timer g)) eqn:Hp; cbn;
     [|split; [discriminate | split; [discriminate | intros (H & _); discriminate H]]]);
    (destruct (Z.eqb_spec (pin_ctl_enabled g) 0) as [He|He]; cbn;
     [split; [discriminate | split; [discriminate | intros (_ & H & _); contradiction]]|]);
    (destruct (Z.eqb_spec (pin_logic_level g) LOGIC_HIGH) as [Hh|Hh]; cbn;
     [repeat case_if;
      (split; [discriminate | split; [discriminate | intros (_ & _ & H & _)]]);
      rewrite Hh in H; discriminate H|]);
    (destruct (Z.eqb_spec (pin_logic_level g) LOGIC_LOW) as [Hl|Hl]; cbn;
     [|split; [discriminate | split; [discriminate | intros (_ & _ & H & _); contradiction]]]);
    (destruct (Z.eqb_spec (off_cycles g) 0) as [Ho|Ho]; cbn;
     [split; [discriminate | split; [intros _; repeat split; assumption | reflexivity]]|]);
    repeat case_if;
    (split; [discriminate | split; [discriminate | intros (_ & _ & _ & H); contradiction]]).
Qed.

Lemma expire_timer_fault_iff_witness :
  faulted (expire_timer true (set_off_cycles 0 (running true 2))) = Some BUG
  /\ faulted (expire_timer true (running true 2)) <> Some BUG.
Proof.
  destruct (expire_timer_fault_iff true (set_off_cycles 0 (running true 2)))
    as [_ [_ Hbug]].
  destruct (expire_timer_fault_iff true (running true 2)) as [_ [Hno _]].
  split.
  - apply Hbug. repeat split; by_compute.
  - intros H. destruct (Hno H) as (_ & _ & _ & Hoff). vm_compute in Hoff.
    discriminate Hoff.
Defined.

(** X15.  [write_sysfs_attribute] never faults, whatever is written to whatever
    name.  [read_sysfs_attribute] faults exactly when [freq] is read while
    [pulse_period] is 0, and the fault is the division by zero. *)
Theorem sysfs_callbacks_fault_iff :
  forall (USE_HR_TIMERS : bool) (HZ count var0 : Z) (attribute buf : string)
         (g : gpio_line_state),
    faulted (write_sysfs_attribute USE_HR_TIMERS HZ attribute buf count g) = None
    /\ (faulted (read_sysfs_attribute USE_HR_TIMERS var0 attribute g)
        = (if String.eqb attribute "freq" && (pulse_period g =? 0)
           then Some DivideError else None)).
Proof.
  intros hr HZ count var0 attribute buf g. split.
  - unfold write_sysfs_attribute.
    destruct (kstrtoint buf) as [rc var].
    destruct ((rc <? 0) || (var <? 0)); [reflexivity|].
    unfold set_gls_frequency, KERNEL_HERTZ.
    destruct (String.eqb attribute "status").
    { destruct (var =? LOGIC_LOW); [destruct hr; reflexivity|].
      destruct (var =? LOGIC_HIGH); [|reflexivity].
      run_monad. destruct (0 <? pulse_period g), hr; reflexivity. }
    destruct (String.eqb attribute "freq").
    { destruct hr; run_monad; repeat case_if; reflexivity. }
    destruct (String.eqb attribute "on_cycles"); [reflexivity|].
    destruct (String.eqb attribute "off_cycles"); reflexivity.
  - unfold read_sysfs_attribute. run_monad.
    destruct (String.eqb_spec attribute "status") as [E|E];
      [subst attribute; reflexivity|].
    destruct (String.eqb_spec attribute "on_cycles") as [E1|E1];
      [subst attribute; reflexivity|].
    destruct (String.eqb_spec attribute "off_cycles") as [E2|E2];
      [subst attribute; reflexivity|].
    destruct (String.eqb attribute "freq"); [|reflexivity].
    cbn [andb]. destruct hr; destruct (pulse_period g =? 0); reflexivity.
Qed.

(** * The low-resolution timer and the period *)

Lemma lr_timer_ok_write (HZ count : Z) (attribute buf : string)
      (g : gpio_line_state) :
  0 < HZ <= MS_PER_SEC ->
  line_ok g -> lr_timer_ok g ->
  lr_timer_ok (state_of (write_sysfs_attribute false HZ attribute buf count g)).
Proof.
  intros HHZ Hok Ht. unfold write_sysfs_attribute.
  destruct (kstrtoint buf) as [rc var].
  destruct (Z.ltb_spec rc 0) as [Hrc|Hrc]; [exact Ht|].
  destruct (Z.ltb_spec var 0) as [Hvar|Hvar]; [exact Ht|].
  cbn [orb].
  destruct Hok as (Hen & Hl & Hon & Hoff & Hp & Hdis & Hhigh & Hheld & Hk).
  unfold lr_timer_ok in *.
  destruct (String.eqb attribute "status").
  { destruct (var =? LOGIC_LOW); [run_monad; intros H; discriminate H|].
    destruct (var =? LOGIC_HIGH); [|run_monad; exact Ht].
    run_monad. destruct (Z.ltb_spec 0 (pulse_period g)) as [Hpos|Hpos]; cbn.
    - intros _. repeat split; assumption.
    - intros Hpend. destruct (Ht Hpend) as (_ & Hgt & _). lia. }
  destruct (String.eqb attribute "freq").
  { unfold set_gls_frequency, KERNEL_HERTZ. run_monad.
    destruct (Z.ltb_spec HZ var) as [Hlt|Hge]; cbn.
    - destruct (Z.eqb_spec (pin_ctl_enabled g) 0) as [E|E]; cbn.
      + intros Hpend. destruct (Hdis E) as (_ & Hnp & _). congruence.
      + destruct (Z.ltb_spec 0 HZ); [|lia]. cbn. intros _.
        split; [destruct Hen; [contradiction | assumption]|].
        split; [apply quot_pos_le; lia | reflexivity].
    - destruct (Z.eqb_spec (pin_ctl_enabled g) 0) as [E|E]; cbn.
      + intros Hpend. destruct (Hdis E) as (_ & Hnp & _). congruence.
      + destruct (Z.ltb_spec 0 var) as [Hv|Hv]; cbn.
        * intros _. split; [destruct Hen; [contradiction | assumption]|].
          split; [apply quot_pos_le; lia | reflexivity].
        * intros H; discriminate H. }
  destruct (String.eqb attribute "on_cycles"); [run_monad; exact Ht|].
  destruct (String.eqb attribute "off_cycles"); run_monad; exact Ht.
Qed.

Lemma lr_timer_ok_expire (g g' : gpio_line_state) (tr : list event) :
  lr_timer_ok g -> expire_timer false g = Ret tt g' tr -> lr_timer_ok g'.
Proof.
  intros Ht Hrun.
  destruct (pending (timer g)) eqn:Hp.
  - destruct (Ht Hp) as (He & Hpos & Hexp).
    revert Hrun. unfold expire_timer, lr_interval_cb. run_monad.
    rewrite Hp. cbn. rewrite He. cbn.
    repeat case_if; intros Hrun; inversion Hrun; subst g'; unfold lr_timer_ok; cbn;
      intros _; repeat split; assumption.
  - rewrite (expire_timer_idle false g Hp) in Hrun.
    inversion Hrun; subst g'. exact Ht.
Qed.

(** X16.  In the low-resolution build, on a kernel with [0 < HZ <= 1000], every
    reachable state with the timer queued has the line enabled, a positive
    [pulse_period], and the timer armed for exactly that period; so a period
    of 0 means that no timer is queued. *)
Theorem lr_timer_follows_period :
  forall (HZ : Z) (g : gpio_line_state),
    0 < HZ <= MS_PER_SEC ->
    reachable false HZ g ->
    line_ok g /\ lr_timer_ok g.
Proof.
  intros HZ g HHZ H. induction H as [name | g g' o tr _ [IHok IHt] Hrun].
  - split; [apply line_ok_fresh | intros H; discriminate H].
  - assert (Hg' : g' = state_of (run_op false HZ o g)) by (rewrite Hrun; reflexivity).
    destruct o as [attribute buf count | var0 attribute |]; cbn [run_op] in *.
    + rewrite state_of_then_ret in Hg'. subst g'.
      split; [apply line_ok_write; exact IHok
             | apply lr_timer_ok_write; assumption].
    + rewrite state_of_then_ret, line_ok_read in Hg'. subst g'.
      split; assumption.
    + split; [subst g'; apply line_ok_expire; exact IHok
             | exact (lr_timer_ok_expire g g' tr IHt Hrun)].
Qed.

Lemma lr_timer_follows_period_witness :
  line_ok (running false 1) /\ lr_timer_ok (running false 1).
Proof.
  assert (HHZ : 0 < 250 <= MS_PER_SEC) by (unfold MS_PER_SEC; lia).
  assert (R : reachable false 250 (running false 1)).
  { eapply (reach_step false 250 _ _ OpExpire).
    - eapply (reach_step false 250 _ _ (OpWrite "status" "1" 2)).
      + eapply (reach_step false 250 _ _ (OpWrite "freq" "2" 2)).
        * apply (reach_fresh false 250 "led0").
        * vm_compute. reflexivity.
      + vm_compute. reflexivity.
    - vm_compute. reflexivity. }
  exact (lr_timer_follows_period 250 _ HHZ R).
Defined.
